(** * purifycss: the orchestration layer of [src/purifycss.js]

    A shallow embedding of [purify], [compressCode], [concatFiles],
    [getRuleString], [printInfo] and [printRejected].

    Conventions of the embedding.
    - A JavaScript string is held as a [string], its UTF-8 text; the
      built-ins [toLowerCase] and [length] are an interface ([JSString]),
      of which the ASCII versions are one implementation.
    - The nodes of the selector AST that [getRuleString] walks are nested
      JavaScript arrays of strings: type [jv].
    - Exceptions, the global object, the file system, the console and the
      clock are threaded through an explicit [world] by the monad [M].
    - The collaborators the file [require]s (UglifyJS, clean-css, the
      modules CssSyntaxTree and ContentSelectorExtraction) are interfaces
      (type classes); every theorem holds for all their implementations. *)

From Stdlib Require Import String Ascii List ZArith Lia Bool.
From stdpp Require Import base option list strings pretty gmap.

Local Open Scope Z_scope.
Set Warnings "-register-all".

(** ** JavaScript values and exceptions *)

Inductive exn : Type :=
  | TypeError (message : string)
  | ReferenceError (message : string)
  | FsError (code path : string)
  | Thrown (message : string).

(** The result of evaluating an expression: a value or a thrown exception. *)
Inductive completion (A : Type) : Type :=
  | Normal (a : A)
  | Throw (e : exn).
Arguments Normal {A} a.
Arguments Throw {A} e.

(** Values of the selector AST: [undefined], strings and arrays. *)
Inductive jv : Type :=
  | JUndefined
  | JStr (s : string)
  | JArr (elems : list jv).

Definition LF : string := String "010"%char EmptyString.

Module JS.

(** [ToString], used by [+] and [+=] on strings.  An array prints as
    its elements joined by commas, [undefined] elements as nothing. *)
Fixpoint ToString (v : jv) : string :=
  match v with
  | JUndefined => "undefined"
  | JStr s => s
  | JArr l =>
      String.concat ","
        (List.map (fun x => match x with
                            | JUndefined => ""
                            | _ => ToString x
                            end) l)
  end.

(** [v[i]]: a property read throws on [undefined], yields a one-character
    string on a string and the element (or [undefined]) on an array. *)
Definition get (v : jv) (i : nat) : completion jv :=
  match v with
  | JUndefined => Throw (TypeError "Cannot read property of undefined")
  | JStr s =>
      Normal (match String.get i s with
              | Some c => JStr (String c EmptyString)
              | None => JUndefined
              end)
  | JArr l => Normal (nth i l JUndefined)
  end.

(** [v.length] *)
Definition length (v : jv) : completion nat :=
  match v with
  | JUndefined => Throw (TypeError "Cannot read property 'length' of undefined")
  | JStr s => Normal (String.length s)
  | JArr l => Normal (List.length l)
  end.

(** [a === b] against a string literal. *)
Definition is_str (v : jv) (s : string) : bool :=
  match v with
  | JStr s' => bool_decide (s' = s)
  | _ => false
  end.

Definition hex_digit (n : N) : ascii :=
  Ascii.ascii_of_N (if (n <? 10)%N then 48 + n else 87 + n)%N.

(** The escape of one character inside a JSON string literal. *)
Definition json_escape (c : ascii) : string :=
  let n := Ascii.N_of_ascii c in
  if (n =? 34)%N then String "\" (String c EmptyString)
  else if (n =? 92)%N then String "\" (String "\" EmptyString)
  else if (n =? 8)%N then "\b"
  else if (n =? 9)%N then "\t"
  else if (n =? 10)%N then "\n"
  else if (n =? 12)%N then "\f"
  else if (n =? 13)%N then "\r"
  else if (n <? 32)%N then
    "\u00" +:+ String (hex_digit (n / 16)) (String (hex_digit (n mod 16)) EmptyString)
  else String c EmptyString.

Fixpoint json_chars (s : string) : string :=
  match s with
  | EmptyString => EmptyString
  | String c s' => json_escape c +:+ json_chars s'
  end.

Definition quote : string := String (Ascii.ascii_of_N 34) EmptyString.

(** [JSON.stringify] on a string or an array ([undefined] elements of an
    array print as [null]). *)
Fixpoint stringify (v : jv) : string :=
  match v with
  | JUndefined => "null"
  | JStr s => quote +:+ json_chars s +:+ quote
  | JArr l => "[" +:+ String.concat "," (List.map stringify l) +:+ "]"
  end.

(** [JSON.stringify(v)] as a value: [undefined] at the top level. *)
Definition JSON_stringify (v : jv) : jv :=
  match v with
  | JUndefined => JUndefined
  | _ => JStr (stringify v)
  end.

End JS.

(** ** getRuleString *)

(** One turn of the [for] loop: the [switch] on [rulePart[0]], returning
    what is appended to [ruleString]. *)
Definition ruleString_of_part (twig rulePart : jv) : completion string :=
  match JS.get rulePart 0 with
  | Throw e => Throw e
  | Normal kind =>
      if JS.is_str kind "s" then
        match JS.get rulePart 1 with
        | Throw e => Throw e
        | Normal v => Normal (if JS.is_str v LF then "" else JS.ToString v)
        end
      else if JS.is_str kind "clazz" then
        match JS.get rulePart 1 with
        | Throw e => Throw e
        | Normal v1 =>
            match JS.get v1 1 with
            | Throw e => Throw e
            | Normal v => Normal ("." +:+ JS.ToString v)
            end
        end
      else if JS.is_str kind "shash" then
        match JS.get rulePart 1 with
        | Throw e => Throw e
        | Normal v => Normal ("#" +:+ JS.ToString v)
        end
      else if JS.is_str kind "ident" then
        match JS.get rulePart 1 with
        | Throw e => Throw e
        | Normal v => Normal (JS.ToString v)
        end
      else if JS.is_str kind "attrib" then
        match JS.get rulePart 1 with
        | Throw e => Throw e
        | Normal v1 =>
            match JS.get v1 1 with
            | Throw e => Throw e
            | Normal v => Normal ("[" +:+ JS.ToString v +:+ "]")
            end
        end
      else
        Normal ("Unsupported: " +:+ JS.ToString (JS.JSON_stringify twig))
  end.

(** The loop [for (var i = 1; i < twig.length; i++)], run over the
    indices [i, i+1, ..., i+n-1]. *)
Fixpoint getRuleString_loop (twig : jv) (i n : nat) (ruleString : string)
  : completion string :=
  match n with
  | O => Normal ruleString
  | S n' =>
      match JS.get twig i with
      | Throw e => Throw e
      | Normal rulePart =>
          match ruleString_of_part twig rulePart with
          | Throw e => Throw e
          | Normal piece =>
              getRuleString_loop twig (S i) n' (ruleString +:+ piece)
          end
      end
  end.

Definition getRuleString (twig : jv) : completion string :=
  match JS.length twig with
  | Throw e => Throw e
  | Normal len => getRuleString_loop twig 1 (len - 1)%nat ""
  end.


(** ** Strings *)

Definition lower_ascii (c : ascii) : ascii :=
  let n := Ascii.N_of_ascii c in
  if ((65 <=? n) && (n <=? 90))%N then Ascii.ascii_of_N (n + 32) else c.

Definition is_upper (c : ascii) : bool :=
  let n := Ascii.N_of_ascii c in ((65 <=? n) && (n <=? 90))%N.

(** Lower-casing of the letters ['A'..'Z'] alone. *)
Fixpoint ascii_toLowerCase (s : string) : string :=
  match s with
  | EmptyString => EmptyString
  | String c s' => String (lower_ascii c) (ascii_toLowerCase s')
  end.

Fixpoint chars (s : string) : list ascii :=
  match s with
  | EmptyString => []
  | String c s' => c :: chars s'
  end.

(** ** Option objects *)

(** The values an option can hold. *)
Inductive oval : Type :=
  | OUndefined
  | ONull
  | OBool (b : bool)
  | ONum (z : Z)
  | OStr (s : string).

(** JavaScript truthiness, as tested by [if (x)], [!x] and [x || y]. *)
Definition truthy (v : oval) : bool :=
  match v with
  | OUndefined | ONull => false
  | OBool b => b
  | ONum z => negb (z =? 0)
  | OStr s => negb (bool_decide (s = ""))
  end.

(** [o.k]: a missing property reads as [undefined]. *)
Definition prop (o : gmap string oval) (k : string) : oval :=
  default OUndefined (o !! k).

(** [_.extend(dst, src)]: every property of [src] is copied over [dst]. *)
Definition extend (dst src : gmap string oval) : gmap string oval :=
  src ∪ dst.

Definition DEFAULT_OPTIONS : gmap string oval :=
  <["write" := OBool false]>
    (<["minify" := OBool false]>
       (<["info" := OBool false]> ∅)).

Definition htmlEls : list string :=
  ["h1";"h2";"h3";"h4";"h5";"h6";"a";"abbr";"acronym";"address";"applet";
   "area";"article";"aside";"audio";"b";"base";"basefont";"bdi";"bdo";
   "bgsound";"big";"blink";"blockquote";"body";"br";"button";"canvas";
   "caption";"center";"cite";"code";"col";"colgroup";"command";"content";
   "data";"datalist";"dd";"del";"details";"dfn";"dialog";"dir";"div";"dl";
   "dt";"element";"em";"embed";"fieldset";"figcaption";"figure";"font";
   "footer";"form";"frame";"frameset";"head";"header";"hgroup";"hr";"html";
   "i";"iframe";"image";"img";"input";"ins";"isindex";"kbd";"keygen";
   "label";"legend";"li";"link";"listing";"main";"map";"mark";"marquee";
   "menu";"menuitem";"meta";"meter";"multicol";"nav";"nobr";"noembed";
   "noframes";"noscript";"object";"ol";"optgroup";"option";"output";"p";
   "param";"picture";"plaintext";"pre";"progress";"q";"rp";"rt";"rtc";
   "ruby";"s";"samp";"script";"section";"select";"shadow";"small";"source";
   "spacer";"span";"strike";"strong";"style";"sub";"summary";"sup";"table";
   "tbody";"td";"template";"textarea";"tfoot";"th";"thead";"time";"title";
   "tr";"track";"tt";"u";"ul";"var";"video";"wbr";"xmp"].

(** ** Collaborators *)

(** The built-ins of strings that [purify] uses:
    [String.prototype.toLowerCase] and the [length] property (a count of
    UTF-16 code units).  What they make of a text is the engine's
    business. *)
Class JSString := {
  toLowerCase : string -> string;
  js_length : string -> nat
}.

(** What lower-casing guarantees: a lower-cased text is left alone by
    lower-casing, and holds none of the letters ['A'..'Z']. *)
Class JSStringLaws (J : JSString) := {
  toLowerCase_idempotent :
    forall s : string, toLowerCase (toLowerCase s) = toLowerCase s;
  toLowerCase_no_upper :
    forall s : string,
      Forall (fun c => is_upper c = false) (chars (toLowerCase s))
}.

(** The part of UglifyJS that [compressCode] calls.  The methods that
    update the syntax tree in place return the updated tree. *)
Class UglifyJS (ast value : Type) := {
  UglifyJS_parse : string -> completion ast;
  figure_out_scope : ast -> completion ast;
  UglifyJS_Compressor : completion value;
  transform : ast -> value -> completion ast;
  compute_char_frequency : ast -> completion ast;
  mangle_names : ast -> completion ast;
  print_to_string : ast -> completion string
}.

(** [new CleanCss().minify(source).styles] *)
Class CleanCss := {
  CleanCss_minify_styles : string -> string
}.

(** The module [CssSyntaxTree.js], of which [purifycss.js] uses the
    constructor, five fields and three methods.  Its source is not at
    hand, so it is an interface: the constructor parses and may throw;
    the two filters prune the tree in place (here: return the pruned
    tree) and return the rejected twigs. *)
Class CssSyntaxTree (tree : Type) := {
  CssSyntaxTree_new : string -> completion tree;
  tree_classes : tree -> list string;
  tree_specialClasses : tree -> list string;
  tree_ids : tree -> list string;
  tree_specialIds : tree -> list string;
  tree_attrSelectors : tree -> list string;
  filterSelectors :
    tree -> list string -> list string -> list string -> list string ->
    tree * list jv;
  filterAtRules :
    tree -> list string -> list string -> list string -> list string ->
    tree * list jv;
  toSrc : tree -> string
}.

(** The module [ContentSelectorExtraction.js], an interface for the same
    reason: an extraction is built from the corpus and filters names. *)
Class ContentSelectorExtraction (extraction : Type) := {
  ContentSelectorExtraction_new : string -> extraction;
  extraction_filter : extraction -> list string -> list string;
  extraction_filterBySearch : extraction -> list string -> list string
}.

(** ** The world and the monad *)

(** One argument of a [console.error] call. *)
Inductive logarg : Type :=
  | LStr (s : string)
  | LNum (z : Z).

(** What an invocation does to its environment, in order.  A call of
    [fs.writeFile] is recorded with its three arguments; that it rejects
    some arguments at once is outside the model. *)
Inductive event : Type :=
  | EvConsole (args : list logarg)
  | EvCallback (source : string)
  | EvWriteFile (path : oval) (data : string)
                (callback : option exn -> option exn).

Record world (value : Type) : Type := World {
  files : gmap string string;      (* the file system, path to text *)
  globals : gmap string value;     (* properties of the global object *)
  clock : list Z;                  (* the successive readings of [new Date()] *)
  trace : list event               (* most recent event last *)
}.
Arguments World {value}.
Arguments files {value}.
Arguments globals {value}.
Arguments clock {value}.
Arguments trace {value}.

Section Monad.
Context {value : Type}.

Definition M (A : Type) : Type := world value -> completion A * world value.

Definition ret {A} (a : A) : M A := fun w => (Normal a, w).

Definition bind {A B} (m : M A) (k : A -> M B) : M B :=
  fun w =>
    match m w with
    | (Normal a, w') => k a w'
    | (Throw e, w') => (Throw e, w')
    end.

Definition lift {A} (c : completion A) : M A := fun w => (c, w).

(** [try { m } catch (e) { h e }] *)
Definition try_catch {A} (m : M A) (h : exn -> M A) : M A :=
  fun w =>
    match m w with
    | (Normal a, w') => (Normal a, w')
    | (Throw e, w') => h e w'
    end.

(** An assignment to an identifier that no scope declares creates or
    overwrites a property of the global object (the file is a CommonJS
    module without ['use strict']).  The properties of [globals] are
    those that can be assigned, as the ones that an assignment creates
    are. *)
Definition set_global (x : string) (v : value) : M unit :=
  fun w => (Normal tt,
            World (files w) (<[x := v]> (globals w)) (clock w) (trace w)).

(** A read of an identifier that no scope declares. *)
Definition get_global (x : string) : M value :=
  fun w =>
    match globals w !! x with
    | Some v => (Normal v, w)
    | None => (Throw (ReferenceError x), w)
    end.

(** The world after one more event. *)
Definition log_event (w : world value) (e : event) : world value :=
  World (files w) (globals w) (clock w) (trace w ++ [e]).

Definition emit (e : event) : M unit :=
  fun w => (Normal tt, log_event w e).

(** [new Date()], as milliseconds. *)
Definition Date_new : M Z :=
  fun w =>
    match clock w with
    | [] => (Normal 0, w)
    | t :: rest => (Normal t, World (files w) (globals w) rest (trace w))
    end.

(** [fs.readFileSync(file, 'utf8')] *)
Definition readFileSync (file : string) : M string :=
  fun w =>
    match files w !! file with
    | Some text => (Normal text, w)
    | None => (Throw (FsError "ENOENT" file), w)
    end.

(** [list.reduce(f, init)] for an effectful [f]. *)
Fixpoint reduce {A B} (f : A -> B -> M A) (l : list B) (init : A) : M A :=
  match l with
  | [] => ret init
  | x :: l' => bind (f init x) (fun a => reduce f l' a)
  end.

End Monad.

Arguments M : clear implicits.

Notation "'let*' x ':=' c1 'in' c2" := (bind c1 (fun x => c2))
  (at level 10, x name, c1 at level 100, c2 at level 200).
Notation "'let*' ' pat ':=' c1 'in' c2" :=
  (bind c1 (fun x => match x with pat => c2 end))
  (at level 10, pat pattern, c1 at level 100, c2 at level 200).
Notation "c1 ';;;' c2" := (bind c1 (fun _ => c2))
  (at level 100, c2 at level 200, right associativity).

(** ** The functions of purifycss.js *)

(** [css] and [searchThrough]: an array of file paths or a raw string. *)
Inductive source : Type :=
  | Files (paths : list string)
  | Raw (text : string).

Section Purify.
Context {ast value tree extraction cbres : Type}.
Context `{!UglifyJS ast value} `{!CleanCss}
        `{!CssSyntaxTree tree} `{!ContentSelectorExtraction extraction}.
Context {js_string : JSString}.
(** The text of [Math.floor(b / e * 10) / 10], a floating-point number. *)
Context (ratio_string : nat -> nat -> string).

Local Abbreviation M := (M value).

(** A callback: a function of the purified css. *)
Definition callback_fn : Type := string -> completion cbres.

(** The third argument of [purify]. *)
Inductive arg3 : Type :=
  | A3Undefined
  | A3Options (o : gmap string oval)
  | A3Function (f : callback_fn).

(** What [purify] returns. *)
Inductive retval : Type :=
  | RetUndefined
  | RetSource (s : string)
  | RetCallback (r : cbres).

(** The body of the [try] block of [compressCode]. *)
Definition compressCode_try (code : string) : M string :=
  let* ast := lift (UglifyJS_parse code) in
  let* ast := lift (figure_out_scope ast) in
  let* c := lift UglifyJS_Compressor in
  set_global "compressor" c ;;;
  let* compressor := get_global "compressor" in
  let* ast := lift (transform ast compressor) in
  let* ast := lift (figure_out_scope ast) in
  let* ast := lift (compute_char_frequency ast) in
  let* ast := lift (mangle_names ast) in
  lift (print_to_string ast).

Definition compressCode (code : string) : M string :=
  try_catch (compressCode_try code) (fun _ => ret code).

Definition concatFiles (files : list string)
    (options : option (gmap string oval)) : M string :=
  let options := default ∅ options in
  reduce (fun total file =>
            let* code := readFileSync file in
            let* code := if truthy (prop options "compress")
                         then compressCode code else ret code in
            ret (total +:+ code +:+ " "))
         files "".

Definition console_error (args : list logarg) : M unit :=
  emit (EvConsole args).

Definition printInfo (startTime : Z) (beginningLength endingLength : nat)
  : M unit :=
  console_error [LStr "##################################"] ;;;
  console_error [LStr ("Before purify, CSS was "
                       +:+ pretty (Z.of_nat beginningLength)
                       +:+ " chars long.")] ;;;
  console_error [LStr ("After purify, CSS is "
                       +:+ pretty (Z.of_nat endingLength)
                       +:+ " chars long. ("
                       +:+ ratio_string beginningLength endingLength
                       +:+ " times smaller)")] ;;;
  console_error [LStr "##################################"] ;;;
  let* now := Date_new in
  console_error [LStr "This function took: "; LNum (now - startTime);
                 LStr "ms"].

(** [_.map(rejectedTwigs, getRuleString)] *)
Fixpoint map_getRuleString (twigs : list jv) : completion (list string) :=
  match twigs with
  | [] => Normal []
  | t :: rest =>
      match getRuleString t with
      | Throw e => Throw e
      | Normal s =>
          match map_getRuleString rest with
          | Throw e => Throw e
          | Normal ss => Normal (s :: ss)
          end
      end
  end.

Definition printRejected (rejectedTwigs : list jv) : M unit :=
  console_error [LStr "##################################"] ;;;
  console_error [LStr "Rejected selectors:"] ;;;
  let* lines := lift (map_getRuleString rejectedTwigs) in
  console_error [LStr (String.concat LF lines)] ;;;
  console_error [LStr "##################################"].

(** Line 35: the css text that is parsed. *)
Definition purify_cssString (css : source) : M string :=
  match css with
  | Files paths => concatFiles paths None
  | Raw text => ret text
  end.

(** Lines 36-40: the corpus that is searched. *)
Definition purify_content (searchThrough : source) : M string :=
  let* content :=
    match searchThrough with
    | Files paths =>
        concatFiles paths (Some (<["compress" := OBool true]> ∅))
    | Raw text => compressCode text
    end in
  ret (toLowerCase content).

(** Lines 47-66: parse, extract, filter, serialise.  Returns the
    serialised pruned tree and the rejected twigs. *)
Definition purify_tree (cssString content : string)
  : completion (string * list jv) :=
  match CssSyntaxTree_new cssString with
  | Throw e => Throw e
  | Normal tree =>
      let extraction : extraction := ContentSelectorExtraction_new content in
      let classes := extraction_filter extraction (tree_classes tree) in
      let specialClasses :=
        extraction_filterBySearch extraction (tree_specialClasses tree) in
      let ids := extraction_filter extraction (tree_ids tree) in
      let specialIds :=
        extraction_filterBySearch extraction (tree_specialIds tree) in
      let attrSelectors :=
        extraction_filterBySearch extraction (tree_attrSelectors tree) in
      let classes := classes ++ specialClasses in
      let ids := ids ++ specialIds in
      let usedHtmlEls := extraction_filter extraction htmlEls in
      let '(tree, rejectedSelectorTwigs) :=
        filterSelectors tree classes usedHtmlEls ids attrSelectors in
      let '(tree, rejectedAtRuleTwigs) :=
        filterAtRules tree classes usedHtmlEls ids attrSelectors in
      Normal (toSrc tree, rejectedSelectorTwigs ++ rejectedAtRuleTwigs)
  end.

(** The function handed to [fs.writeFile]:
    [function(err){ if(err) return err; }] ([None] is [undefined]). *)
Definition writeFile_callback (err : option exn) : option exn :=
  match err with
  | Some e => Some e
  | None => None
  end.

(** Lines 80-87: hand the result over.  The call of [fs.writeFile] is
    recorded and taken to return; that holds for a destination that is a
    path (a string), the documented kind. *)
Definition deliver (options : gmap string oval)
    (callback : option callback_fn) (source : string) : M retval :=
  if negb (truthy (prop options "output")) then
    match callback with
    | Some cb =>
        emit (EvCallback source) ;;;
        let* r := lift (cb source) in
        ret (RetCallback r)
    | None => ret (RetSource source)
    end
  else
    emit (EvWriteFile (prop options "output") source writeFile_callback) ;;;
    ret RetUndefined.

(** Lines 28-31: a function in third place is the callback. *)
Definition resolve_callback (options : arg3)
    (callback : option callback_fn) : option callback_fn :=
  match options with
  | A3Function f => Some f
  | _ => callback
  end.

(** Lines 28-33: the options in force. *)
Definition resolve_options (options : arg3) : gmap string oval :=
  let options :=
    match options with
    | A3Options o => o
    | _ => ∅
    end in
  extend (extend ∅ DEFAULT_OPTIONS) options.

(** Lines 43-78: from the texts to the purified css, after reporting. *)
Definition purify_pruned (options : gmap string oval)
    (cssString content : string) : M string :=
  let beginningLength := js_length cssString in
  let* startTime := Date_new in
  let* '(source, rejected) := lift (purify_tree cssString content) in
  let source :=
    if truthy (prop options "minify")
    then CleanCss_minify_styles source else source in
  (if truthy (prop options "info")
   then printInfo startTime beginningLength (js_length source)
   else ret tt) ;;;
  (if truthy (prop options "rejected")
   then printRejected rejected
   else ret tt) ;;;
  ret source.

(** Lines 35-78: the purified css text. *)
Definition purify_source (searchThrough css : source)
    (options : gmap string oval) : M string :=
  let* cssString := purify_cssString css in
  let* content := purify_content searchThrough in
  purify_pruned options cssString content.

Definition purify (searchThrough css : source) (options : arg3)
    (callback : option callback_fn) : M retval :=
  let callback := resolve_callback options callback in
  let options := resolve_options options in
  let* source := purify_source searchThrough css options in
  deliver options callback source.

(** Node completes a queued [fs.writeFile(path, data, callback)] from its
    event loop, after [purify] has returned: on success the file holds
    [data]; either way [callback] is called with the error, and what the
    callback returns is dropped. *)
Definition complete_writeFile (failure : option exn) (path data : string)
    (callback : option exn -> option exn) (w : world value) : world value :=
  let _ := callback failure in
  match failure with
  | None => World (<[path := data]> (files w)) (globals w) (clock w) (trace w)
  | Some _ => w
  end.

(** The world after the event loop has completed, in their order, the
    write requests of the trace whose destination is a string; [outcome]
    gives the error, if any, of the write to a path. *)
Definition complete_writes (outcome : string -> option exn)
    (w : world value) : world value :=
  fold_left (fun acc ev =>
               match ev with
               | EvWriteFile (OStr path) data callback =>
                   complete_writeFile (outcome path) path data callback acc
               | _ => acc
               end)
            (trace w) w.

(** The stages of the [try] block without the global object: what
    [compressCode_try] computes. *)
Definition uglify (code : string) : completion string :=
  match UglifyJS_parse code with
  | Throw e => Throw e
  | Normal a =>
  match figure_out_scope a with
  | Throw e => Throw e
  | Normal a =>
  match UglifyJS_Compressor with
  | Throw e => Throw e
  | Normal c =>
  match transform a c with
  | Throw e => Throw e
  | Normal a =>
  match figure_out_scope a with
  | Throw e => Throw e
  | Normal a =>
  match compute_char_frequency a with
  | Throw e => Throw e
  | Normal a =>
  match mangle_names a with
  | Throw e => Throw e
  | Normal a => print_to_string a
  end end end end end end end.

(** The text [compressCode] returns for [code]. *)
Definition compressed (code : string) : string :=
  match uglify code with
  | Normal s => s
  | Throw _ => code
  end.

(** The world with another global object. *)
Definition with_globals (w : world value) (g : gmap string value)
  : world value :=
  World (files w) g (clock w) (trace w).

(** The global object after [compressCode code]: the assignment to
    [compressor] is reached when the three calls before it return. *)
Definition compress_globals (code : string) (g : gmap string value)
  : gmap string value :=
  match UglifyJS_parse code with
  | Throw _ => g
  | Normal a =>
      match figure_out_scope a with
      | Throw _ => g
      | Normal _ =>
          match UglifyJS_Compressor with
          | Throw _ => g
          | Normal c => <["compressor" := c]> g
          end
      end
  end.

(** The global object after compressing each of [texts] in turn. *)
Definition compress_all_globals (texts : list string)
    (g : gmap string value) : gmap string value :=
  fold_left (fun g t => compress_globals t g) texts g.

(** The texts behind a source: the raw string, or the text of each file. *)
Definition source_reads (w : world value) (src : source)
    (texts : list string) : Prop :=
  match src with
  | Raw text => texts = [text]
  | Files paths => Forall2 (fun p t => files w !! p = Some t) paths texts
  end.

(** How [purify] joins the parts of a source: a raw string is taken as it
    is, the parts of a file list are each followed by a space. *)
Definition joined (src : source) (parts : list string) : string :=
  match src with
  | Raw _ => String.concat "" parts
  | Files _ => String.concat "" (List.map (fun t => t +:+ " ") parts)
  end.

Definition is_console (e : event) : Prop :=
  match e with
  | EvConsole _ => True
  | _ => False
  end.

(** [w'] is [w] after console output and clock readings only; with
    [keep] the global object is the same too. *)
Definition frame (keep : bool) (w w' : world value) : Prop :=
  files w' = files w
  /\ (keep = true -> globals w' = globals w)
  /\ exists evs : list event,
       trace w' = trace w ++ evs /\ Forall is_console evs.

Definition framed (keep : bool) {A : Type} (m : M A) : Prop :=
  forall w : world value, frame keep w (snd (m w)).


(** The usage lists of lines 50-59. *)
Definition used_classes (t : tree) (content : string) : list string :=
  let e : extraction := ContentSelectorExtraction_new content in
  extraction_filter e (tree_classes t)
  ++ extraction_filterBySearch e (tree_specialClasses t).

Definition used_ids (t : tree) (content : string) : list string :=
  let e : extraction := ContentSelectorExtraction_new content in
  extraction_filter e (tree_ids t)
  ++ extraction_filterBySearch e (tree_specialIds t).

Definition used_attrSelectors (t : tree) (content : string) : list string :=
  let e : extraction := ContentSelectorExtraction_new content in
  extraction_filterBySearch e (tree_attrSelectors t).

Definition usedHtmlEls (content : string) : list string :=
  let e : extraction := ContentSelectorExtraction_new content in
  extraction_filter e htmlEls.

End Purify.

(** ** The selector parts that [getRuleString] distinguishes *)

Inductive part : Type :=
  | PWhitespace (text : string)                 (* ['s', text] *)
  | PClass (name : string)                      (* ['clazz', ['ident', name]] *)
  | PId (name : string)                         (* ['shash', name] *)
  | PTag (name : string)                        (* ['ident', name] *)
  | PAttribute (name : string) (rest : list jv) (* ['attrib', ['ident', name], ...] *)
  | POther (kind : string) (rest : list jv).    (* any other node *)

Definition part_node (p : part) : jv :=
  match p with
  | PWhitespace text => JArr [JStr "s"; JStr text]
  | PClass name => JArr [JStr "clazz"; JArr [JStr "ident"; JStr name]]
  | PId name => JArr [JStr "shash"; JStr name]
  | PTag name => JArr [JStr "ident"; JStr name]
  | PAttribute name rest =>
      JArr (JStr "attrib" :: JArr [JStr "ident"; JStr name] :: rest)
  | POther kind rest => JArr (JStr kind :: rest)
  end.

(** A twig: the node tag in first place, then the parts. *)
Definition twig_node (tag : jv) (parts : list part) : jv :=
  JArr (tag :: List.map part_node parts).

Definition supported_kinds : list string :=
  ["s"; "clazz"; "shash"; "ident"; "attrib"].

Definition well_tagged (p : part) : Prop :=
  match p with
  | POther kind _ => kind ∉ supported_kinds
  | _ => True
  end.

(** What [getRuleString] appends for one part of [twig]. *)
Definition render_part (twig : jv) (p : part) : string :=
  match p with
  | PWhitespace text => if bool_decide (text = LF) then "" else text
  | PClass name => "." +:+ name
  | PId name => "#" +:+ name
  | PTag name => name
  | PAttribute name _ => "[" +:+ name +:+ "]"
  | POther _ _ => "Unsupported: " +:+ JS.stringify twig
  end.

(** The rendering as the specification words it: decoration per kind,
    whitespace passed through. *)
Definition spec_render_part (p : part) : string :=
  match p with
  | PWhitespace text => text
  | PClass name => "." +:+ name
  | PId name => "#" +:+ name
  | PTag name => name
  | PAttribute name _ => "[" +:+ name +:+ "]"
  | POther _ _ => ""
  end.

Definition spec_getRuleString (parts : list part) : string :=
  String.concat "" (List.map spec_render_part parts).

(** The corpus as the specification words it: the lower-cased
    concatenation of the compressed sources. *)
Definition spec_corpus `{!JSString} (compressed_sources : list string)
  : string :=
  toLowerCase (String.concat "" compressed_sources).

(** The css text as the specification words it: the files' texts with a
    separating space between consecutive ones. *)
Definition spec_cssString (texts : list string) : string :=
  String.concat " " texts.

(** ** A small implementation of the collaborators, for evaluation *)

Module Toy.

(** Scripts parse, markup (a text that starts with [<]) does not; a
    compressed script loses its spaces. *)
Fixpoint strip_spaces (s : string) : string :=
  match s with
  | EmptyString => EmptyString
  | String c s' =>
      if bool_decide (c = " "%char) then strip_spaces s'
      else String c (strip_spaces s')
  end.

Definition parse (code : string) : completion string :=
  match code with
  | String "<" _ => Throw (Thrown "SyntaxError: Unexpected token: operator (<)")
  | _ => Normal code
  end.

#[global] Instance uglify : UglifyJS string string := {|
  UglifyJS_parse := parse;
  figure_out_scope := fun a => Normal a;
  UglifyJS_Compressor := Normal "[object Compressor]";
  transform := fun a _ => Normal (strip_spaces a);
  compute_char_frequency := fun a => Normal a;
  mangle_names := fun a => Normal a;
  print_to_string := fun a => Normal a
|}.

(** The ASCII built-ins. *)
#[global] Instance jsstring : JSString := {|
  toLowerCase := ascii_toLowerCase;
  js_length := String.length
|}.

#[global] Instance cleancss : CleanCss := {|
  CleanCss_minify_styles := strip_spaces
|}.

(** A tree that is its own source text and is never pruned. *)
#[global] Instance csstree : CssSyntaxTree string := {|
  CssSyntaxTree_new := fun css => Normal css;
  tree_classes := fun _ => [];
  tree_specialClasses := fun _ => [];
  tree_ids := fun _ => [];
  tree_specialIds := fun _ => [];
  tree_attrSelectors := fun _ => [];
  filterSelectors := fun t _ _ _ _ => (t, []);
  filterAtRules := fun t _ _ _ _ => (t, []);
  toSrc := fun t => t
|}.

#[global] Instance extraction : ContentSelectorExtraction string := {|
  ContentSelectorExtraction_new := fun content => content;
  extraction_filter := fun _ names => names;
  extraction_filterBySearch := fun _ names => names
|}.

Definition ratio_string (b e : nat) : string := "?".

Definition disk : gmap string string :=
  <["a.css" := ".a{}"]> (<["b.css" := ".b{}"]>
  (<["x.html" := "<P>"]> (<["y.html" := "<B>"]>
  (<["z.js" := "F (B)"]> ∅)))).

Definition w0 : world string := World disk ∅ [100; 107] [].

(** [purify] with the toy collaborators and a callback that returns the
    length of the css. *)
Definition run (searchThrough css : source) (options : arg3)
    (callback : option (string -> completion nat))
  : completion retval * world string :=
  purify ratio_string searchThrough css options callback w0.

End Toy.

(** ** Relations between the world before and after a computation *)

(** Every run of [m] relates the world it starts in to the one it leaves. *)
Definition keeps {value A : Type} (R : world value -> world value -> Prop)
    (m : M value A) : Prop :=
  forall w : world value, R w (snd (m w)).

(** Two global objects that agree on every property but [compressor]. *)
Definition same_off_compressor {value : Type} (g g' : gmap string value)
  : Prop :=
  forall k : string, k <> "compressor" -> g' !! k = g !! k.

(** The global object is the same off [compressor]. *)
Definition same_globals_off_compressor {value : Type} (w w' : world value)
  : Prop :=
  same_off_compressor (globals w) (globals w').

Definition same_trace {value : Type} (w w' : world value) : Prop :=
  trace w' = trace w.

(** A part of one of the five kinds that [getRuleString] decorates. *)
Definition decorated (p : part) : Prop :=
  match p with
  | POther _ _ => False
  | _ => True
  end.

(** Nodes on which the [switch] of [getRuleString] reads a property of
    [undefined]: a hole, and a class or attribute node without its child. *)
Definition broken_node (v : jv) : Prop :=
  v = JUndefined \/ v = JArr [JStr "clazz"] \/ v = JArr [JStr "attrib"].

(** A twig given by its node tag and its parts, and its rendering. *)
Definition render_twig (t : jv * list part) : string :=
  String.concat ""
    (List.map (render_part (twig_node (fst t) (snd t))) (snd t)).

(** The option names that [purify] reads. *)
Definition read_options : list string :=
  ["minify"; "info"; "rejected"; "output"].

(** The texts of [paths] read from [fs] in order, each followed by a
    space, after [total]; the first path without a file is the error. *)
Fixpoint read_joined (fs : gmap string string) (paths : list string)
    (total : string) : completion string :=
  match paths with
  | [] => Normal total
  | p :: rest =>
      match fs !! p with
      | Some text => read_joined fs rest (total +:+ text +:+ " ")
      | None => Throw (FsError "ENOENT" p)
      end
  end.

(** The function that [concatFiles] reduces with. *)
Definition concatFiles_step {ast value : Type} `{!UglifyJS ast value}
    (compress : bool) (total file : string) : M value string :=
  let* code := readFileSync file in
  let* code := if compress then compressCode code else ret code in
  ret (total +:+ code +:+ " ").

(** ** A css tree that fails, for evaluation *)

Module Faulty.

(** The parser rejects a lone opening brace; the selector filter rejects
    one twig, a class node that has lost its identifier. *)
Definition csstree : CssSyntaxTree string := {|
  CssSyntaxTree_new := fun css =>
    if bool_decide (css = "{") then Throw (Thrown "CssSyntaxError")
    else Normal css;
  tree_classes := fun _ => [];
  tree_specialClasses := fun _ => [];
  tree_ids := fun _ => [];
  tree_specialIds := fun _ => [];
  tree_attrSelectors := fun _ => [];
  filterSelectors := fun t _ _ _ _ =>
    (t, [JArr [JStr "simpleselector"; JArr [JStr "clazz"]]]);
  filterAtRules := fun t _ _ _ _ => (t, []);
  toSrc := fun t => t
|}.

Definition run (searchThrough css : source) (options : arg3)
    (callback : option (string -> completion nat))
  : completion retval * world string :=
  purify (CssSyntaxTree0 := csstree) Toy.ratio_string searchThrough css
    options callback Toy.w0.

End Faulty.

(** * Properties *)

(** ** Strings *)

Lemma append_cons (x : ascii) (a b : string) :
  String x a +:+ b = String x (a +:+ b).
Proof. reflexivity. Qed.

Lemma append_assoc (a b c : string) : (a +:+ b) +:+ c = a +:+ (b +:+ c).
Proof.
  induction a as [|x a' IH]; [reflexivity|].
  rewrite !append_cons. now f_equal.
Qed.

Lemma append_empty_r (a : string) : a +:+ "" = a.
Proof.
  induction a as [|x a' IH]; [reflexivity|].
  rewrite append_cons. now f_equal.
Qed.

Lemma concat_empty_cons (t : string) (l : list string) :
  String.concat "" (t :: l) = t +:+ String.concat "" l.
Proof.
  destruct l as [|u l]; simpl.
  - now rewrite append_empty_r.
  - reflexivity.
Qed.

Lemma lower_ascii_not_upper (c : ascii) : is_upper (lower_ascii c) = false.
Proof.
  unfold is_upper, lower_ascii.
  destruct ((65 <=? Ascii.N_of_ascii c)%N && (Ascii.N_of_ascii c <=? 90)%N)
    eqn:E.
  - apply andb_true_iff in E as [E1 E2].
    apply N.leb_le in E1, E2.
    rewrite Ascii.N_ascii_embedding by lia.
    apply andb_false_iff; right. apply N.leb_gt. lia.
  - exact E.
Qed.

Lemma ascii_toLowerCase_lower (s : string) :
  Forall (fun c => is_upper c = false) (chars (ascii_toLowerCase s)).
Proof.
  induction s as [|c s' IH]; simpl; constructor.
  - apply lower_ascii_not_upper.
  - exact IH.
Qed.

Lemma ascii_toLowerCase_length (s : string) :
  String.length (ascii_toLowerCase s) = String.length s.
Proof. induction s as [|c s' IH]; simpl; [reflexivity | now f_equal]. Qed.

Lemma lower_ascii_idempotent (c : ascii) :
  lower_ascii (lower_ascii c) = lower_ascii c.
Proof.
  pose proof (lower_ascii_not_upper c) as Hc.
  unfold is_upper in Hc. unfold lower_ascii at 1. now rewrite Hc.
Qed.

Lemma ascii_toLowerCase_idempotent (s : string) :
  ascii_toLowerCase (ascii_toLowerCase s) = ascii_toLowerCase s.
Proof.
  induction s as [|c s' IH]; simpl; [reflexivity|].
  now rewrite lower_ascii_idempotent, IH.
Qed.

(** The ASCII built-ins keep the guarantees of lower-casing. *)
#[global] Instance toy_jsstring_laws : JSStringLaws Toy.jsstring.
Proof.
  split.
  - exact ascii_toLowerCase_idempotent.
  - exact ascii_toLowerCase_lower.
Qed.

(** ** getRuleString *)

Lemma is_str_other (kind : string) :
  kind ∉ supported_kinds ->
  JS.is_str (JStr kind) "s" = false
  /\ JS.is_str (JStr kind) "clazz" = false
  /\ JS.is_str (JStr kind) "shash" = false
  /\ JS.is_str (JStr kind) "ident" = false
  /\ JS.is_str (JStr kind) "attrib" = false.
Proof.
  intros Hk. unfold JS.is_str.
  repeat split; apply bool_decide_eq_false; intros ->; apply Hk;
    unfold supported_kinds; set_solver.
Qed.

(** The [switch] on a well-tagged part. *)
Lemma ruleString_of_part_node (elems : list jv) (p : part) :
  well_tagged p ->
  ruleString_of_part (JArr elems) (part_node p)
  = Normal (render_part (JArr elems) p).
Proof.
  intros Hp. destruct p as [text|name|name|name|name rest|kind rest];
    try reflexivity.
  cbn in Hp. destruct (is_str_other kind Hp) as (E1 & E2 & E3 & E4 & E5).
  unfold ruleString_of_part. cbn [part_node JS.get nth].
  rewrite E1, E2, E3, E4, E5. reflexivity.
Qed.

(** The loop over the parts that follow [pre]. *)
Lemma getRuleString_loop_parts (pre : list jv) (parts : list part) :
  forall (seen : list part) (ruleString : string),
  Forall well_tagged parts ->
  let twig := JArr (pre ++ List.map part_node (seen ++ parts)) in
  getRuleString_loop twig (List.length pre + List.length seen)
    (List.length parts) ruleString
  = Normal (ruleString
            +:+ String.concat "" (List.map (render_part twig) parts)).
Proof.
  induction parts as [|p parts IH]; intros seen ruleString Hwt twig.
  - cbn. now rewrite append_empty_r.
  - apply Forall_cons in Hwt as [Hp Hwt].
    cbn [List.length getRuleString_loop List.map].
    rewrite concat_empty_cons.
    assert (Hget : JS.get twig (List.length pre + List.length seen)
                   = Normal (part_node p)).
    { unfold twig, JS.get. f_equal.
      rewrite List.map_app, List.app_assoc. cbn [List.map].
      rewrite <- (List.length_map part_node seen), <- List.length_app.
      apply List.nth_middle. }
    rewrite Hget.
    unfold twig at 1. rewrite (ruleString_of_part_node _ p Hp).
    fold twig.
    specialize (IH (seen ++ [p]) (ruleString +:+ render_part twig p) Hwt).
    rewrite <- List.app_assoc in IH. cbn [List.app] in IH.
    rewrite List.length_app in IH. cbn [List.length] in IH.
    replace (S (List.length pre + List.length seen))
      with (List.length pre + (List.length seen + 1))%nat by lia.
    fold twig in IH. rewrite IH. now rewrite append_assoc.
Qed.

(** C7, amended.  For a twig whose parts are tagged arrays, the rendering
    is the concatenation, in part order, of: ['.' + name] for a class,
    ['#' + name] for an id, the bare name for a tag, ['[' + name + ']']
    for an attribute (the name of the attribute alone), the text of a
    whitespace part unless that text is exactly one newline (which is
    left out), and for a part of any other kind ['Unsupported: '] followed
    by the JSON text of the whole twig. *)
Theorem getRuleString_renders (tag : jv) (parts : list part) :
  Forall well_tagged parts ->
  getRuleString (twig_node tag parts)
  = Normal (String.concat ""
              (List.map (render_part (twig_node tag parts)) parts)).
Proof.
  intros Hwt. unfold getRuleString, twig_node.
  cbn [JS.length List.length]. rewrite List.length_map.
  replace (S (List.length parts) - 1)%nat with (List.length parts) by lia.
  exact (getRuleString_loop_parts [tag] parts [] "" Hwt).
Qed.

(** ** The monad and the functions of purifycss.js *)

Section Facts.
Context {ast value tree extraction cbres : Type}.
Context `{!UglifyJS ast value} `{!CleanCss}
        `{!CssSyntaxTree tree} `{!ContentSelectorExtraction extraction}.
Context {js_string : JSString}.
Context (ratio_string : nat -> nat -> string).

Local Abbreviation M := (M value).
Local Abbreviation world := (world value).
Local Abbreviation resolve_options := (resolve_options (cbres:=cbres)).
Local Abbreviation callback_fn := (callback_fn (cbres:=cbres)).
Local Abbreviation arg3 := (arg3 (cbres:=cbres)).

Lemma with_globals_id (w : world) : with_globals w (globals w) = w.
Proof. now destruct w. Qed.


(** [compressCode_try] computes [uglify] and leaves the compressor object
    in the global object. *)
Lemma compressCode_try_run (code : string) (w : world) :
  compressCode_try code w
  = (uglify code, with_globals w (compress_globals code (globals w))).
Proof.
  unfold compressCode_try, uglify, compress_globals, bind, lift,
    set_global, get_global.
  destruct (UglifyJS_parse code) as [a|e]; [|now rewrite with_globals_id].
  destruct (figure_out_scope a) as [a1|e]; [|now rewrite with_globals_id].
  destruct UglifyJS_Compressor as [c|e]; [|now rewrite with_globals_id].
  cbn [globals]. rewrite lookup_insert_eq.
  destruct (transform a1 c) as [a2|e]; [|reflexivity].
  destruct (figure_out_scope a2) as [a3|e]; [|reflexivity].
  destruct (compute_char_frequency a3) as [a4|e]; [|reflexivity].
  destruct (mangle_names a4) as [a5|e]; reflexivity.
Qed.

(** [compressCode] never throws. *)
Lemma compressCode_run (code : string) (w : world) :
  compressCode code w
  = (Normal (compressed code),
     with_globals w (compress_globals code (globals w))).
Proof.
  unfold compressCode, try_catch, compressed.
  rewrite compressCode_try_run.
  destruct (uglify code); reflexivity.
Qed.


Lemma readFileSync_run (file text : string) (w : world) :
  files w !! file = Some text -> readFileSync file w = (Normal text, w).
Proof. intros Hf. unfold readFileSync. now rewrite Hf. Qed.

(** [concatFiles] over readable files: every text, compressed when the
    [compress] option is truthy, followed by one space. *)
Lemma concatFiles_reduce (compress : bool) (fs : gmap string string)
    (paths texts : list string) :
  Forall2 (fun p t => fs !! p = Some t) paths texts ->
  forall (total : string) (w : world),
  files w = fs ->
  reduce (fun total file =>
            let* code := readFileSync file in
            let* code := if compress then compressCode code else ret code in
            ret (total +:+ code +:+ " "))
         paths total w
  = (Normal (total +:+ String.concat ""
               (List.map (fun t => (if compress then compressed t else t)
                                   +:+ " ") texts)),
     with_globals w (if compress
                     then compress_all_globals texts (globals w)
                     else globals w)).
Proof.
  induction 1 as [|p t paths texts Hp Hrest IH]; intros total w Hfs.
  - cbn. rewrite append_empty_r. destruct compress; now rewrite with_globals_id.
  - cbn [reduce List.map]. rewrite concat_empty_cons.
    unfold bind at 1. unfold bind at 1.
    rewrite (readFileSync_run p t w) by now rewrite Hfs.
    destruct compress.
    + unfold bind at 1. rewrite compressCode_run. unfold ret at 1.
      rewrite IH by exact Hfs.
      now rewrite !append_assoc.
    + unfold bind at 1. unfold ret at 1 2.
      rewrite IH by exact Hfs.
      now rewrite !append_assoc.
Qed.

Lemma concatFiles_run (options : option (gmap string oval))
    (paths texts : list string) (w : world) :
  Forall2 (fun p t => files w !! p = Some t) paths texts ->
  let compress := truthy (prop (default ∅ options) "compress") in
  concatFiles paths options w
  = (Normal (String.concat ""
               (List.map (fun t => (if compress then compressed t else t)
                                   +:+ " ") texts)),
     with_globals w (if compress
                     then compress_all_globals texts (globals w)
                     else globals w)).
Proof.
  intros Hreads compress. unfold concatFiles.
  exact (concatFiles_reduce compress (files w) paths texts Hreads "" w eq_refl).
Qed.

Lemma purify_content_run (src : source) (texts : list string) (w : world) :
  source_reads w src texts ->
  purify_content src w
  = (Normal (toLowerCase (joined src (List.map compressed texts))),
     with_globals w (compress_all_globals texts (globals w))).
Proof.
  intros Hreads. unfold purify_content. destruct src as [paths|text].
  - unfold bind.
    rewrite (concatFiles_run (Some (<["compress" := OBool true]> ∅))
               paths texts w Hreads).
    cbn [joined]. rewrite List.map_map. reflexivity.
  - cbn in Hreads. subst texts. unfold bind.
    rewrite compressCode_run. reflexivity.
Qed.

Lemma purify_cssString_run (css : source) (texts : list string) (w : world) :
  source_reads w css texts ->
  purify_cssString css w = (Normal (joined css texts), w).
Proof.
  intros Hreads. unfold purify_cssString. destruct css as [paths|text].
  - rewrite (concatFiles_run None paths texts w Hreads).
    cbn [joined]. now rewrite with_globals_id.
  - cbn in Hreads. subst texts. reflexivity.
Qed.

(** Joining with a space after every part is joining with a space
    between the parts, and one more space at the end. *)
Lemma joined_trailing_space (t : string) (texts : list string) :
  String.concat "" (List.map (fun t => t +:+ " ") (t :: texts))
  = spec_cssString (t :: texts) +:+ " ".
Proof.
  revert t. induction texts as [|u texts IH]; intros t.
  - reflexivity.
  - change (List.map (fun t => t +:+ " ") (t :: u :: texts))
      with ((t +:+ " ") :: List.map (fun t => t +:+ " ") (u :: texts)).
    rewrite concat_empty_cons, IH.
    change (spec_cssString (t :: u :: texts))
      with (t +:+ " " +:+ spec_cssString (u :: texts)).
    now rewrite !append_assoc.
Qed.

(** C1.  If any stage of the compression throws, [compressCode] returns
    the text it was given, so the corpus is the lower-cased raw text of
    that source: for a raw string, and for a file (where the text is
    followed by the separating space).  Only the global object may have
    changed. *)
Theorem compressCode_failure_keeps_text (code : string) (w w' : world)
    (e : exn) :
  compressCode_try code w = (Throw e, w') ->
  compressCode code w = (Normal code, w')
  /\ purify_content (Raw code) w = (Normal (toLowerCase code), w')
  /\ (forall path : string,
        files w !! path = Some code ->
        purify_content (Files [path]) w
        = (Normal (toLowerCase (code +:+ " ")), w'))
  /\ files w' = files w /\ trace w' = trace w /\ clock w' = clock w.
Proof.
  intros Htry.
  assert (Hrun : compressCode code w = (Normal code, w')).
  { unfold compressCode, try_catch. now rewrite Htry. }
  pose proof (compressCode_run code w) as Hc. rewrite Hrun in Hc.
  injection Hc as Hcode Hw'.
  repeat split.
  - exact Hrun.
  - unfold purify_content, bind. now rewrite Hrun.
  - intros path Hpath.
    rewrite (purify_content_run (Files [path]) [code] w)
      by (constructor; [exact Hpath | constructor]).
    cbn [joined List.map compress_all_globals fold_left].
    rewrite <- Hcode, <- Hw'. reflexivity.
  - now rewrite Hw'.
  - now rewrite Hw'.
  - now rewrite Hw'.
Qed.

(** C5, amended.  The corpus is the lower-cased concatenation of the
    compressed sources, where each source of a file list is followed by
    one space (a raw string is not); every character of it is
    lower-case: lower-casing leaves the corpus as it is, and none of the
    letters ['A'..'Z'] occurs in it. *)
Theorem purify_content_corpus `{!JSStringLaws js_string} (src : source)
    (texts : list string) (w : world) :
  source_reads w src texts ->
  let corpus := toLowerCase (joined src (List.map compressed texts)) in
  (exists w' : world, purify_content src w = (Normal corpus, w'))
  /\ toLowerCase corpus = corpus
  /\ Forall (fun c => is_upper c = false) (chars corpus).
Proof.
  intros Hreads corpus. split; [|split].
  - eexists. exact (purify_content_run src texts w Hreads).
  - apply toLowerCase_idempotent.
  - apply toLowerCase_no_upper.
Qed.

(** C6, amended.  The css text given to the parser is, for an array of
    files, the texts each followed by one space: a space between
    consecutive texts and one more after the last; a raw string is taken
    as it is. *)
Theorem purify_cssString_joined (css : source) (texts : list string)
    (w : world) :
  source_reads w css texts ->
  purify_cssString css w = (Normal (joined css texts), w)
  /\ match css with
     | Raw text => joined css texts = text
     | Files _ =>
         match texts with
         | [] => joined css texts = ""
         | _ => joined css texts = spec_cssString texts +:+ " "
         end
     end.
Proof.
  intros Hreads. split.
  - exact (purify_cssString_run css texts w Hreads).
  - destruct css as [paths|text].
    + destruct texts as [|t texts]; [reflexivity|].
      apply joined_trailing_space.
    + cbn in Hreads. subst texts. reflexivity.
Qed.

(** *** What a stage may change *)

Lemma frame_refl (keep : bool) (w : world) : frame keep w w.
Proof.
  repeat split. exists []. split; [now rewrite app_nil_r | constructor].
Qed.

Lemma frame_trans (keep : bool) (w1 w2 w3 : world) :
  frame keep w1 w2 -> frame keep w2 w3 -> frame keep w1 w3.
Proof.
  intros (Hf1 & Hg1 & evs1 & Ht1 & Hc1) (Hf2 & Hg2 & evs2 & Ht2 & Hc2).
  split; [congruence|]. split.
  - intros Hk. rewrite (Hg2 Hk). exact (Hg1 Hk).
  - exists (evs1 ++ evs2). split.
    + rewrite Ht2, Ht1. now rewrite <- List.app_assoc.
    + apply Forall_app. now split.
Qed.

Lemma frame_weaken (keep : bool) (w w' : world) :
  frame true w w' -> frame keep w w'.
Proof.
  intros (Hf & Hg & Hev). split; [exact Hf|]. split; [|exact Hev].
  intros _. now apply Hg.
Qed.

Lemma framed_weaken {A} (keep : bool) (m : M A) :
  framed true m -> framed keep m.
Proof. intros Hm w. apply frame_weaken, Hm. Qed.

Lemma framed_ret {A} (keep : bool) (a : A) : framed keep (ret a : M A).
Proof. intros w. apply frame_refl. Qed.

Lemma framed_lift {A} (keep : bool) (c : completion A) :
  framed keep (lift c : M A).
Proof. intros w. apply frame_refl. Qed.

Lemma framed_bind {A B} (keep : bool) (m : M A) (k : A -> M B) :
  framed keep m -> (forall a, framed keep (k a)) -> framed keep (bind m k).
Proof.
  intros Hm Hk w. unfold bind. specialize (Hm w).
  destruct (m w) as [[a|e] w1]; cbn [snd] in *.
  - eapply frame_trans; [exact Hm | apply Hk].
  - exact Hm.
Qed.

Lemma framed_try_catch {A} (keep : bool) (m : M A) (h : exn -> M A) :
  framed keep m -> (forall e, framed keep (h e)) ->
  framed keep (try_catch m h).
Proof.
  intros Hm Hh w. unfold try_catch. specialize (Hm w).
  destruct (m w) as [[a|e] w1]; cbn [snd] in *.
  - exact Hm.
  - eapply frame_trans; [exact Hm | apply Hh].
Qed.

Lemma framed_Date_new (keep : bool) : framed keep (Date_new : M Z).
Proof.
  intros w. unfold Date_new. destruct (clock w) as [|t rest].
  - apply frame_refl.
  - repeat split. exists []. split; [cbn; now rewrite app_nil_r | constructor].
Qed.

Lemma framed_readFileSync (keep : bool) (file : string) :
  framed keep (readFileSync file : M string).
Proof.
  intros w. unfold readFileSync. destruct (files w !! file); apply frame_refl.
Qed.

Lemma framed_get_global (keep : bool) (x : string) :
  framed keep (get_global x : M value).
Proof.
  intros w. unfold get_global. destruct (globals w !! x); apply frame_refl.
Qed.

Lemma framed_set_global (x : string) (v : value) :
  framed false (set_global x v : M unit).
Proof.
  intros w. split; [reflexivity|]. split; [discriminate|].
  exists []. split; [cbn; now rewrite app_nil_r | constructor].
Qed.

Lemma framed_console_error (keep : bool) (args : list logarg) :
  framed keep (console_error args : M unit).
Proof.
  intros w. repeat split. exists [EvConsole args].
  split; [reflexivity | repeat constructor].
Qed.

Lemma framed_reduce {A B} (keep : bool) (f : A -> B -> M A) (l : list B) :
  (forall a b, framed keep (f a b)) ->
  forall init : A, framed keep (reduce f l init).
Proof.
  intros Hf. induction l as [|x l IH]; intros init; cbn [reduce].
  - apply framed_ret.
  - apply framed_bind; [apply Hf | exact IH].
Qed.

Lemma framed_if {A} (keep : bool) (b : bool) (m1 m2 : M A) :
  framed keep m1 -> framed keep m2 -> framed keep (if b then m1 else m2).
Proof. now destruct b. Qed.

Ltac framed_step :=
  first
    [ apply framed_ret | apply framed_lift | apply framed_Date_new
    | apply framed_readFileSync | apply framed_get_global
    | apply framed_set_global | apply framed_console_error
    | apply framed_if
    | apply framed_bind; [|intros ?] ].

Lemma framed_compressCode (code : string) : framed false (compressCode code).
Proof.
  apply framed_try_catch; [|intros e; apply framed_ret].
  unfold compressCode_try. repeat framed_step.
Qed.

Lemma framed_concatFiles (paths : list string)
    (options : option (gmap string oval)) :
  framed false (concatFiles paths options).
Proof.
  unfold concatFiles. apply framed_reduce. intros total file.
  repeat framed_step. apply framed_compressCode.
Qed.

Lemma framed_printInfo (keep : bool) (startTime : Z) (b e : nat) :
  framed keep (printInfo ratio_string startTime b e : M unit).
Proof. unfold printInfo. repeat framed_step. Qed.

Lemma framed_printRejected (keep : bool) (twigs : list jv) :
  framed keep (printRejected twigs : M unit).
Proof. unfold printRejected. repeat framed_step. Qed.

Lemma framed_purify_pruned (keep : bool) (options : gmap string oval)
    (cssString content : string) :
  framed keep (purify_pruned ratio_string options cssString content
               : M string).
Proof.
  unfold purify_pruned. apply framed_bind; [apply framed_Date_new|].
  intros startTime. apply framed_bind; [apply framed_lift|].
  intros [source rejected].
  repeat framed_step.
Qed.

Lemma framed_purify_source (searchThrough css : source)
    (options : gmap string oval) :
  framed false (purify_source ratio_string searchThrough css options
                : M string).
Proof.
  unfold purify_source, purify_cssString, purify_content.
  apply framed_bind.
  { destruct css; [apply framed_concatFiles | apply framed_ret]. }
  intros cssString. apply framed_bind.
  { apply framed_bind; [|intros; apply framed_ret].
    destruct searchThrough;
      [apply framed_concatFiles | apply framed_compressCode]. }
  intros content. apply framed_purify_pruned.
Qed.

(** *** Delivery *)

Lemma purify_eq (searchThrough css : source) (a3 : arg3)
    (cb : option callback_fn) (w : world) :
  purify ratio_string searchThrough css a3 cb w
  = match purify_source ratio_string searchThrough css (resolve_options a3) w
    with
    | (Normal source, w1) =>
        deliver (resolve_options a3) (resolve_callback a3 cb) source w1
    | (Throw e, w1) => (Throw e, w1)
    end.
Proof. reflexivity. Qed.

Lemma deliver_return (options : gmap string oval) (source : string)
    (w : world) :
  truthy (prop options "output") = false ->
  deliver (cbres:=cbres) options None source w = (Normal (RetSource source), w).
Proof. intros Ho. unfold deliver. now rewrite Ho. Qed.

Lemma deliver_callback (options : gmap string oval)
    (f : callback_fn) (source : string) (w : world) :
  truthy (prop options "output") = false ->
  deliver options (Some f) source w
  = (match f source with
     | Normal r => Normal (RetCallback r)
     | Throw e => Throw e
     end, log_event w (EvCallback source)).
Proof.
  intros Ho. unfold deliver. rewrite Ho. cbn [negb].
  unfold bind, emit, lift, ret. now destruct (f source).
Qed.

Lemma deliver_write (options : gmap string oval)
    (cb : option callback_fn) (source : string) (w : world) :
  truthy (prop options "output") = true ->
  deliver options cb source w
  = (Normal RetUndefined,
     log_event w (EvWriteFile (prop options "output") source
                    writeFile_callback)).
Proof. intros Ho. unfold deliver. now rewrite Ho. Qed.

Lemma complete_writes_last (outcome : string -> option exn) (w : world)
    (path data : string) (callback : option exn -> option exn) :
  outcome path = None ->
  files (complete_writes outcome
           (log_event w (EvWriteFile (OStr path) data callback)))
  !! path = Some data.
Proof.
  intros Hok. unfold complete_writes. cbn [trace log_event].
  rewrite fold_left_app. cbn [fold_left]. rewrite Hok.
  cbn [complete_writeFile files]. apply lookup_insert_eq.
Qed.

(** C2.  When the pipeline has produced the purified text [source]: with
    no destination it is passed to the callback, whose result is
    returned, when there is a callback, and returned itself otherwise;
    with a destination path [purify] asks [fs.writeFile] to write it to
    that path, and once the requests of the invocation are completed
    without error the file at that path holds it. *)
Theorem purify_delivers (searchThrough css : source)
    (a3 : arg3) (cb : option callback_fn) (w w1 : world)
    (source : string) :
  purify_source ratio_string searchThrough css (resolve_options a3) w
  = (Normal source, w1) ->
  let output := prop (resolve_options a3) "output" in
  let r := purify ratio_string searchThrough css a3 cb w in
  (truthy output = false ->
   match resolve_callback a3 cb with
   | Some f =>
       r = (match f source with
            | Normal v => Normal (RetCallback v)
            | Throw e => Throw e
            end, log_event w1 (EvCallback source))
   | None => r = (Normal (RetSource source), w1)
   end)
  /\ (forall path : string,
       output = OStr path -> path <> "" ->
       r = (Normal RetUndefined,
            log_event w1 (EvWriteFile (OStr path) source writeFile_callback))
       /\ forall outcome : string -> option exn,
            outcome path = None ->
            files (complete_writes outcome (snd r)) !! path = Some source).
Proof.
  intros Hsrc output r. subst r output. rewrite purify_eq, Hsrc. split.
  - intros Ho. destruct (resolve_callback a3 cb) as [f|].
    + exact (deliver_callback _ f source w1 Ho).
    + exact (deliver_return _ source w1 Ho).
  - intros path Hout Hpath.
    assert (Ho : truthy (prop (resolve_options a3) "output") = true).
    { rewrite Hout. cbn. now rewrite bool_decide_eq_false_2. }
    rewrite (deliver_write _ _ _ _ Ho), Hout. split; [reflexivity|].
    intros outcome Hok. cbn [snd]. now apply complete_writes_last.
Qed.

(** C3, at the failing write.  With a destination path [purify] has
    returned [undefined] before the write completes; whether the write
    then fails or not changes neither that value nor the trace nor the
    global object: the error that the completion callback returns goes
    to [fs] and is dropped.  Only the file differs. *)
Theorem write_failure_not_surfaced (searchThrough css : source)
    (a3 : arg3) (cb : option callback_fn) (w w1 : world)
    (source path : string) (failure : option exn) :
  purify_source ratio_string searchThrough css (resolve_options a3) w
  = (Normal source, w1) ->
  prop (resolve_options a3) "output" = OStr path ->
  path <> "" ->
  let r := purify ratio_string searchThrough css a3 cb w in
  let after :=
    complete_writeFile failure path source writeFile_callback (snd r) in
  fst r = Normal RetUndefined
  /\ trace after
     = trace w1 ++ [EvWriteFile (OStr path) source writeFile_callback]
  /\ globals after = globals w1
  /\ clock after = clock w1
  /\ files after = match failure with
                   | Some _ => files w1
                   | None => <[path := source]> (files w1)
                   end.
Proof.
  intros Hsrc Hout Hpath r after. subst after r.
  rewrite purify_eq, Hsrc.
  rewrite deliver_write.
  2:{ rewrite Hout. cbn. now rewrite bool_decide_eq_false_2. }
  rewrite Hout. destruct failure; repeat split; reflexivity.
Qed.

(** C9.  With a destination path in [options.output], [purify] returns
    [undefined] when the pipeline completes (and throws what the pipeline
    throws otherwise), and no callback is invoked, whether one was given
    or not. *)
Theorem purify_output_returns_undefined (searchThrough css : source)
    (a3 : arg3) (cb : option callback_fn) (w : world) (path : string) :
  prop (resolve_options a3) "output" = OStr path ->
  path <> "" ->
  let r := purify ratio_string searchThrough css a3 cb w in
  let s := purify_source ratio_string searchThrough css (resolve_options a3) w
  in
  match fst s with
  | Normal _ => fst r = Normal RetUndefined
  | Throw e => r = (Throw e, snd s)
  end
  /\ exists evs : list event,
       trace (snd r) = trace w ++ evs
       /\ forall source : string, EvCallback source ∉ evs.
Proof.
  intros Hout Hpath r s. subst r s. rewrite purify_eq.
  assert (Ho : truthy (prop (resolve_options a3) "output") = true).
  { rewrite Hout. cbn. now rewrite bool_decide_eq_false_2. }
  pose proof (framed_purify_source searchThrough css (resolve_options a3) w)
    as (_ & _ & evs & Htr & Hcons).
  destruct (purify_source ratio_string searchThrough css
              (resolve_options a3) w) as [[source|e] w1]; cbn [fst snd] in *.
  - rewrite (deliver_write _ _ _ _ Ho). split; [reflexivity|].
    exists (evs ++ [EvWriteFile (prop (resolve_options a3) "output") source
                      writeFile_callback]).
    cbn. rewrite Htr, <- List.app_assoc. split; [reflexivity|].
    intros src Hin. apply elem_of_app in Hin as [Hin|Hin].
    + rewrite Forall_forall in Hcons. exact (Hcons _ Hin).
    + apply list_elem_of_singleton in Hin. discriminate.
  - split; [reflexivity|]. exists evs. split; [exact Htr|].
    intros src Hin. rewrite Forall_forall in Hcons. exact (Hcons _ Hin).
Qed.

(** *** The options *)

Lemma prop_resolve_output (o : gmap string oval) :
  prop (resolve_options (A3Options o)) "output"
  = prop o "output".
Proof.
  unfold resolve_options, extend, prop.
  rewrite lookup_union_l; [reflexivity|].
  rewrite lookup_union_l by apply lookup_empty.
  reflexivity.
Qed.

Lemma prop_resolve_write (o : gmap string oval) (v : oval) (k : string) :
  k <> "write" ->
  prop (resolve_options (A3Options (<["write" := v]> o))) k
  = prop (resolve_options (A3Options o)) k.
Proof.
  intros Hk. unfold resolve_options, extend, prop.
  rewrite !(lookup_union _ (DEFAULT_OPTIONS ∪ ∅)).
  now rewrite lookup_insert_ne by congruence.
Qed.

(** [purify] reads four options. *)
Lemma purify_source_options (searchThrough css : source)
    (o1 o2 : gmap string oval) (w : world) :
  prop o1 "minify" = prop o2 "minify" ->
  prop o1 "info" = prop o2 "info" ->
  prop o1 "rejected" = prop o2 "rejected" ->
  purify_source ratio_string searchThrough css o1 w
  = purify_source ratio_string searchThrough css o2 w.
Proof.
  intros Hm Hi Hr. unfold purify_source, purify_pruned.
  now rewrite Hm, Hi, Hr.
Qed.

Lemma deliver_options (o1 o2 : gmap string oval)
    (cb : option callback_fn) (source : string) (w : world) :
  prop o1 "output" = prop o2 "output" ->
  deliver o1 cb source w = deliver o2 cb source w.
Proof. intros Ho. unfold deliver. now rewrite Ho. Qed.

(** C10.  The [write] option is never read: setting it changes nothing.
    So with [write] set and no truthy [output], no file is written and no
    write is requested, and the purified text is returned, or passed to
    the callback when there is one. *)
Theorem write_option_is_ignored (searchThrough css : source)
    (o : gmap string oval) (v : oval)
    (cb : option callback_fn) (w : world) :
  let r :=
    purify ratio_string searchThrough css (A3Options (<["write" := v]> o))
      cb w in
  r = purify ratio_string searchThrough css (A3Options o) cb w
  /\ (truthy (prop o "output") = false ->
      files (snd r) = files w
      /\ (exists evs : list event,
            trace (snd r) = trace w ++ evs
            /\ forall path data c, EvWriteFile path data c ∉ evs)
      /\ forall (source : string) (w1 : world),
           purify_source ratio_string searchThrough css
             (resolve_options (A3Options o)) w
           = (Normal source, w1) ->
           match cb with
           | Some f =>
               r = (match f source with
                    | Normal x => Normal (RetCallback x)
                    | Throw e => Throw e
                    end, log_event w1 (EvCallback source))
           | None => r = (Normal (RetSource source), w1)
           end).
Proof.
  intros r.
  assert (Heq : r = purify ratio_string searchThrough css (A3Options o) cb w).
  { subst r. rewrite !purify_eq.
    rewrite (purify_source_options searchThrough css
               (resolve_options (A3Options (<["write" := v]> o)))
               (resolve_options (A3Options o)) w)
      by (apply prop_resolve_write; discriminate).
    destruct (purify_source ratio_string searchThrough css
                (resolve_options (A3Options o)) w) as [[source|e] w1];
      [|reflexivity].
    apply deliver_options, prop_resolve_write. discriminate. }
  split; [exact Heq|]. intros Ho. rewrite Heq. clear Heq r.
  rewrite <- (prop_resolve_output o) in Ho.
  rewrite purify_eq.
  pose proof (framed_purify_source searchThrough css
                (resolve_options (A3Options o)) w)
    as (Hfiles & _ & evs & Htr & Hcons).
  rewrite Forall_forall in Hcons.
  destruct (purify_source ratio_string searchThrough css
              (resolve_options (A3Options o)) w) as [[source|e] w1];
    cbn [fst snd resolve_callback] in *.
  - destruct cb as [f|].
    + rewrite (deliver_callback _ f source w1 Ho). cbn [snd].
      split; [exact Hfiles|]. split.
      * exists (evs ++ [EvCallback source]). cbn.
        rewrite Htr, <- List.app_assoc. split; [reflexivity|].
        intros path data c Hin. apply elem_of_app in Hin as [Hin|Hin].
        -- exact (Hcons _ Hin).
        -- apply list_elem_of_singleton in Hin. discriminate.
      * intros source' w1' [= <- <-]. reflexivity.
    + rewrite (deliver_return _ source w1 Ho). cbn [snd].
      split; [exact Hfiles|]. split.
      * exists evs. split; [exact Htr|].
        intros path data c Hin. exact (Hcons _ Hin).
      * intros source' w1' [= <- <-]. reflexivity.
  - split; [exact Hfiles|]. split.
    + exists evs. split; [exact Htr|].
      intros path data c Hin. exact (Hcons _ Hin).
    + intros source' w1' [=].
Qed.

(** *** The global object *)

Lemma deliver_globals (options : gmap string oval)
    (cb : option callback_fn) (source : string) (w : world) :
  globals (snd (deliver options cb source w)) = globals w.
Proof.
  destruct (truthy (prop options "output")) eqn:Ho.
  - now rewrite (deliver_write _ _ _ _ Ho).
  - destruct cb as [f|].
    + now rewrite (deliver_callback _ f _ _ Ho).
    + now rewrite (deliver_return _ _ _ Ho).
Qed.

(** C4, at the failing input.  Whenever the script parses and the
    compressor is built, an invocation on a raw string leaves the
    compressor object in the property [compressor] of the global object,
    whatever was there before and whatever happens afterwards. *)
Theorem purify_assigns_global_compressor (text cssText : string)
    (a a' : ast) (c : value) (a3 : arg3) (cb : option callback_fn)
    (w : world) :
  UglifyJS_parse text = Normal a ->
  figure_out_scope a = Normal a' ->
  UglifyJS_Compressor = Normal c ->
  globals (snd (purify ratio_string (Raw text) (Raw cssText) a3 cb w))
  = <["compressor" := c]> (globals w).
Proof.
  intros Hparse Hscope Hcomp.
  assert (Hg : compress_globals text (globals w)
               = <["compressor" := c]> (globals w)).
  { unfold compress_globals. now rewrite Hparse, Hscope, Hcomp. }
  rewrite purify_eq. unfold purify_source. unfold bind at 1.
  cbn [purify_cssString]. unfold ret at 1. unfold bind at 1.
  rewrite (purify_content_run (Raw text) [text] w eq_refl).
  cbn [compress_all_globals fold_left]. rewrite Hg.
  set (w2 := with_globals w (<["compressor" := c]> (globals w))).
  pose proof (framed_purify_pruned true (resolve_options a3) cssText
                (toLowerCase (joined (Raw text) (List.map compressed [text])))
                w2) as (_ & Hglob & _).
  specialize (Hglob eq_refl).
  destruct (purify_pruned ratio_string (resolve_options a3) cssText _ w2)
    as [[source|e] w3]; cbn [snd] in *.
  - now rewrite deliver_globals, Hglob.
  - exact Hglob.
Qed.















(** *** Minification *)

Lemma purify_tree_run (cssString content : string) (tree0 tree1 tree2 : tree)
    (rej1 rej2 : list jv) :
  CssSyntaxTree_new cssString = Normal tree0 ->
  filterSelectors tree0 (used_classes tree0 content) (usedHtmlEls content)
    (used_ids tree0 content) (used_attrSelectors tree0 content)
  = (tree1, rej1) ->
  filterAtRules tree1 (used_classes tree0 content) (usedHtmlEls content)
    (used_ids tree0 content) (used_attrSelectors tree0 content)
  = (tree2, rej2) ->
  purify_tree cssString content = Normal (toSrc tree2, rej1 ++ rej2).
Proof.
  intros Hnew Hsel Hat. unfold purify_tree. rewrite Hnew.
  unfold used_classes, usedHtmlEls, used_ids, used_attrSelectors in Hsel, Hat.
  cbv zeta in *. rewrite Hsel, Hat. reflexivity.
Qed.

Lemma printInfo_returns (startTime : Z) (b e : nat) (w : world) :
  exists w' : world, printInfo ratio_string startTime b e w = (Normal tt, w').
Proof.
  unfold printInfo, bind, console_error, emit, Date_new. cbn [clock log_event].
  destruct (clock w); eexists; reflexivity.
Qed.

Lemma printRejected_returns (twigs : list jv) (lines : list string)
    (w : world) :
  map_getRuleString twigs = Normal lines ->
  exists w' : world, printRejected twigs w = (Normal tt, w').
Proof.
  intros Hlines. unfold printRejected, bind, console_error, emit, lift.
  rewrite Hlines. eexists; reflexivity.
Qed.

(** C8.  The text that [purify] delivers is the serialisation of the
    tree after [filterSelectors] and then [filterAtRules] have pruned it,
    passed through the minifier when the [minify] option is truthy and
    untouched otherwise. *)
Theorem minify_applies_to_purified_source (searchThrough css : source)
    (options : gmap string oval) (cssTexts texts : list string)
    (tree0 tree1 tree2 : tree) (rej1 rej2 : list jv) (w : world) :
  source_reads w css cssTexts ->
  source_reads w searchThrough texts ->
  let cssString := joined css cssTexts in
  let content := toLowerCase (joined searchThrough (List.map compressed texts))
  in
  CssSyntaxTree_new cssString = Normal tree0 ->
  filterSelectors tree0 (used_classes tree0 content) (usedHtmlEls content)
    (used_ids tree0 content) (used_attrSelectors tree0 content)
  = (tree1, rej1) ->
  filterAtRules tree1 (used_classes tree0 content) (usedHtmlEls content)
    (used_ids tree0 content) (used_attrSelectors tree0 content)
  = (tree2, rej2) ->
  (truthy (prop options "rejected") = true ->
   exists lines, map_getRuleString (rej1 ++ rej2) = Normal lines) ->
  exists w1 : world,
    purify_source ratio_string searchThrough css options w
    = (Normal (if truthy (prop options "minify")
               then CleanCss_minify_styles (toSrc tree2)
               else toSrc tree2), w1).
Proof.
  intros Hcss Hcontent cssString content Hnew Hsel Hat Hrej.
  unfold purify_source. unfold bind at 1.
  rewrite (purify_cssString_run css cssTexts w Hcss).
  unfold bind at 1.
  rewrite (purify_content_run searchThrough texts w Hcontent).
  fold cssString content.
  set (w2 := with_globals w _).
  unfold purify_pruned. unfold bind at 1.
  assert (Hdate : exists t w3, Date_new w2 = (Normal t, w3)).
  { unfold Date_new. destruct (clock w2); repeat eexists. }
  destruct Hdate as (t & w3 & Hdate). rewrite Hdate.
  unfold bind at 1. unfold lift at 1.
  rewrite (purify_tree_run cssString content tree0 tree1 tree2 rej1 rej2
             Hnew Hsel Hat).
  set (source := if truthy (prop options "minify")
                 then CleanCss_minify_styles (toSrc tree2) else toSrc tree2).
  unfold bind at 1.
  assert (Hinfo : exists w4,
            (if truthy (prop options "info")
             then printInfo ratio_string t (js_length cssString)
                    (js_length source)
             else ret tt) w3 = (Normal tt, w4)).
  { destruct (truthy (prop options "info")).
    - apply printInfo_returns.
    - now exists w3. }
  destruct Hinfo as (w4 & Hinfo). rewrite Hinfo.
  unfold bind at 1.
  assert (Hprint : exists w5,
            (if truthy (prop options "rejected")
             then printRejected (rej1 ++ rej2)
             else ret tt) w4 = (Normal tt, w5)).
  { destruct (truthy (prop options "rejected")).
    - destruct (Hrej eq_refl) as [lines Hlines].
      exact (printRejected_returns _ lines w4 Hlines).
    - now exists w4. }
  destruct Hprint as (w5 & Hprint). rewrite Hprint.
  now exists w5.
Qed.

End Facts.

(** ** Evaluations with the toy collaborators *)

(** C1 at the markup ["<P>"], which does not parse as a script. *)
Lemma compressCode_failure_keeps_text_witness :
  compressCode_try "<P>" Toy.w0
  = (Throw (Thrown "SyntaxError: Unexpected token: operator (<)"), Toy.w0)
  /\ compressCode "<P>" Toy.w0 = (Normal "<P>", Toy.w0)
  /\ purify_content (Raw "<P>") Toy.w0 = (Normal "<p>", Toy.w0).
Proof.
  assert (Htry : compressCode_try "<P>" Toy.w0
                 = (Throw (Thrown "SyntaxError: Unexpected token: operator (<)"),
                    Toy.w0)) by reflexivity.
  split; [exact Htry|].
  destruct (compressCode_failure_keeps_text "<P>" Toy.w0 Toy.w0 _ Htry)
    as (H1 & H2 & _).
  split; [exact H1 | exact H2].
Defined.

(** C5 as stated fails at two markup files: the corpus has a space after
    each source. *)
Lemma corpus_not_plain_concatenation :
  source_reads Toy.w0 (Files ["x.html"; "y.html"]) ["<P>"; "<B>"]
  /\ List.map compressed ["<P>"; "<B>"] = ["<P>"; "<B>"]
  /\ spec_corpus (List.map compressed ["<P>"; "<B>"]) = "<p><b>"
  /\ purify_content (Files ["x.html"; "y.html"]) Toy.w0
     = (Normal "<p> <b> ", Toy.w0)
  /\ fst (purify_content (Files ["x.html"; "y.html"]) Toy.w0)
     <> Normal (spec_corpus (List.map compressed ["<P>"; "<B>"])).
Proof.
  repeat split.
  - repeat constructor.
  - vm_compute. discriminate.
Qed.

Lemma purify_content_corpus_witness :
  source_reads Toy.w0 (Files ["x.html"; "z.js"]) ["<P>"; "F (B)"]
  /\ (exists w', purify_content (Files ["x.html"; "z.js"]) Toy.w0
                 = (Normal "<p> f(b) ", w'))
  /\ toLowerCase "<p> f(b) " = "<p> f(b) "
  /\ Forall (fun c => is_upper c = false) (chars "<p> f(b) ").
Proof.
  assert (Hreads : source_reads Toy.w0 (Files ["x.html"; "z.js"])
                     ["<P>"; "F (B)"]) by repeat constructor.
  split; [exact Hreads|].
  exact (purify_content_corpus (Files ["x.html"; "z.js"]) ["<P>"; "F (B)"]
           Toy.w0 Hreads).
Defined.

(** C6 as stated fails at one file: a space follows the text. *)
Lemma cssString_not_space_separated :
  source_reads Toy.w0 (Files ["a.css"]) [".a{}"]
  /\ spec_cssString [".a{}"] = ".a{}"
  /\ purify_cssString (Files ["a.css"]) Toy.w0 = (Normal ".a{} ", Toy.w0)
  /\ fst (purify_cssString (Files ["a.css"]) Toy.w0)
     <> Normal (spec_cssString [".a{}"]).
Proof.
  repeat split.
  - repeat constructor.
  - vm_compute. discriminate.
Qed.

Lemma purify_cssString_joined_witness :
  source_reads Toy.w0 (Files ["a.css"; "b.css"]) [".a{}"; ".b{}"]
  /\ purify_cssString (Files ["a.css"; "b.css"]) Toy.w0
     = (Normal ".a{} .b{} ", Toy.w0)
  /\ ".a{} .b{} " = spec_cssString [".a{}"; ".b{}"] +:+ " ".
Proof.
  assert (Hreads : source_reads Toy.w0 (Files ["a.css"; "b.css"])
                     [".a{}"; ".b{}"]) by repeat constructor.
  split; [exact Hreads|].
  exact (purify_cssString_joined (Files ["a.css"; "b.css"])
           [".a{}"; ".b{}"] Toy.w0 Hreads).
Defined.

(** C7 as stated fails where a selector starts on a new line: the
    whitespace part is left out, not passed through. *)
Lemma getRuleString_drops_newline :
  getRuleString
    (twig_node (JStr "simpleselector") [PWhitespace LF; PClass "b"])
  = Normal ".b"
  /\ spec_getRuleString [PWhitespace LF; PClass "b"] = LF +:+ ".b"
  /\ getRuleString
       (twig_node (JStr "simpleselector") [PWhitespace LF; PClass "b"])
     <> Normal (spec_getRuleString [PWhitespace LF; PClass "b"]).
Proof.
  repeat split. vm_compute. discriminate.
Qed.

Lemma getRuleString_renders_witness :
  Forall well_tagged
    [PClass "btn"; PWhitespace " "; PTag "a"; PId "top";
     PAttribute "type" [JArr [JStr "attrselector"; JStr "="];
                        JArr [JStr "ident"; JStr "text"]];
     PWhitespace LF]
  /\ getRuleString
       (twig_node (JStr "simpleselector")
          [PClass "btn"; PWhitespace " "; PTag "a"; PId "top";
           PAttribute "type" [JArr [JStr "attrselector"; JStr "="];
                              JArr [JStr "ident"; JStr "text"]];
           PWhitespace LF])
     = Normal ".btn a#top[type]".
Proof.
  assert (Hwt : Forall well_tagged
    [PClass "btn"; PWhitespace " "; PTag "a"; PId "top";
     PAttribute "type" [JArr [JStr "attrselector"; JStr "="];
                        JArr [JStr "ident"; JStr "text"]];
     PWhitespace LF]) by (repeat constructor).
  split; [exact Hwt|].
  exact (getRuleString_renders (JStr "simpleselector") _ Hwt).
Defined.

(** A part of another kind, here a pseudo-class, is reported as
    unsupported together with the whole twig. *)
Example getRuleString_pseudo_class :
  getRuleString
    (twig_node (JStr "simpleselector")
       [PClass "a"; POther "pseudoc" [JArr [JStr "ident"; JStr "hover"]]])
  = Normal (".aUnsupported: "
            +:+ JS.stringify
                  (twig_node (JStr "simpleselector")
                     [PClass "a";
                      POther "pseudoc" [JArr [JStr "ident"; JStr "hover"]]])).
Proof. reflexivity. Qed.

(** C2: no options and no callback, a callback in third place, and a
    destination whose write succeeds. *)
Lemma purify_delivers_witness :
  let f : string -> completion nat := fun s => Normal (String.length s) in
  let out := A3Options (<["output" := OStr "out.css"]> ∅) in
  purify_source Toy.ratio_string (Raw "<P>") (Raw "p {}")
    (resolve_options (cbres:=nat) A3Undefined) Toy.w0
  = (Normal "p {}", World Toy.disk ∅ [107] [])
  /\ Toy.run (Raw "<P>") (Raw "p {}") A3Undefined None
     = (Normal (RetSource "p {}"), World Toy.disk ∅ [107] [])
  /\ Toy.run (Raw "<P>") (Raw "p {}") (A3Function f) None
     = (Normal (RetCallback 4%nat),
        World Toy.disk ∅ [107] [EvCallback "p {}"])
  /\ prop (resolve_options (cbres:=nat) out) "output" = OStr "out.css"
  /\ Toy.run (Raw "<P>") (Raw "p {}") out (Some f)
     = (Normal RetUndefined,
        World Toy.disk ∅ [107]
          [EvWriteFile (OStr "out.css") "p {}" writeFile_callback])
  /\ files (complete_writes (fun _ => None)
              (snd (Toy.run (Raw "<P>") (Raw "p {}") out (Some f))))
     !! "out.css" = Some "p {}".
Proof.
  intros f out.
  assert (H1 : purify_source Toy.ratio_string (Raw "<P>") (Raw "p {}")
                 (resolve_options (cbres:=nat) A3Undefined) Toy.w0
               = (Normal "p {}", World Toy.disk ∅ [107] []))
    by reflexivity.
  assert (H2 : purify_source Toy.ratio_string (Raw "<P>") (Raw "p {}")
                 (resolve_options (A3Function f)) Toy.w0
               = (Normal "p {}", World Toy.disk ∅ [107] []))
    by reflexivity.
  assert (H3 : purify_source Toy.ratio_string (Raw "<P>") (Raw "p {}")
                 (resolve_options (cbres:=nat) out) Toy.w0
               = (Normal "p {}", World Toy.disk ∅ [107] []))
    by reflexivity.
  assert (Hpath : "out.css" <> "") by discriminate.
  split; [exact H1|]. split.
  { exact (proj1 (purify_delivers Toy.ratio_string (Raw "<P>") (Raw "p {}")
                    A3Undefined None Toy.w0 _ "p {}" H1) eq_refl). }
  split.
  { exact (proj1 (purify_delivers Toy.ratio_string (Raw "<P>") (Raw "p {}")
                    (A3Function f) None Toy.w0 _ "p {}" H2) eq_refl). }
  split; [reflexivity|].
  destruct (proj2 (purify_delivers Toy.ratio_string (Raw "<P>") (Raw "p {}")
                     out (Some f) Toy.w0 _ "p {}" H3)
              "out.css" eq_refl Hpath) as [Hr Hfile].
  split; [exact Hr|]. exact (Hfile (fun _ => None) eq_refl).
Defined.

(** C3: a write to a directory that does not exist. *)
Lemma write_failure_not_surfaced_witness :
  let a3 := A3Options (<["output" := OStr "/no/such/dir/out.css"]> ∅) in
  let failure := Some (FsError "ENOENT" "/no/such/dir/out.css") in
  let r := Toy.run (Raw "<P>") (Raw "p {}") a3
             (Some (fun s => Normal (String.length s))) in
  let after := complete_writeFile failure "/no/such/dir/out.css" "p {}"
                 writeFile_callback (snd r) in
  purify_source Toy.ratio_string (Raw "<P>") (Raw "p {}")
    (resolve_options (cbres:=nat) a3) Toy.w0
  = (Normal "p {}", World Toy.disk ∅ [107] [])
  /\ fst r = Normal RetUndefined
  /\ trace after
     = [EvWriteFile (OStr "/no/such/dir/out.css") "p {}" writeFile_callback]
  /\ files after = Toy.disk.
Proof.
  intros a3 failure r after.
  assert (H1 : purify_source Toy.ratio_string (Raw "<P>") (Raw "p {}")
                 (resolve_options (cbres:=nat) a3) Toy.w0
               = (Normal "p {}", World Toy.disk ∅ [107] []))
    by reflexivity.
  split; [exact H1|].
  assert (Hpath : "/no/such/dir/out.css" <> "") by discriminate.
  destruct (write_failure_not_surfaced Toy.ratio_string (Raw "<P>")
              (Raw "p {}") a3 (Some (fun s => Normal (String.length s)))
              Toy.w0 _ "p {}" "/no/such/dir/out.css" failure
              H1 eq_refl Hpath) as (Hr & Htr & _ & _ & Hf).
  split; [exact Hr|]. split; [exact Htr | exact Hf].
Defined.

(** C4: a script that parses leaves [compressor] behind. *)
Lemma purify_assigns_global_compressor_witness :
  UglifyJS_parse "F (B)" = Normal "F (B)"
  /\ figure_out_scope "F (B)" = Normal "F (B)"
  /\ UglifyJS_Compressor = Normal "[object Compressor]"
  /\ globals (snd (Toy.run (Raw "F (B)") (Raw "p {}") A3Undefined None))
     = <["compressor" := "[object Compressor]"]> ∅.
Proof.
  split; [reflexivity|]. split; [reflexivity|]. split; [reflexivity|].
  exact (purify_assigns_global_compressor Toy.ratio_string "F (B)" "p {}"
           "F (B)" "F (B)" "[object Compressor]" A3Undefined None Toy.w0
           eq_refl eq_refl eq_refl).
Defined.

(** C8: two files, minified and not. *)
Lemma minify_applies_to_purified_source_witness :
  source_reads Toy.w0 (Files ["a.css"; "b.css"]) [".a{}"; ".b{}"]
  /\ source_reads Toy.w0 (Raw "<P>") ["<P>"]
  /\ (exists w1,
       purify_source Toy.ratio_string (Raw "<P>") (Files ["a.css"; "b.css"])
         (<["minify" := OBool true]> ∅) Toy.w0
       = (Normal (Toy.strip_spaces ".a{} .b{} "), w1))
  /\ (exists w1,
       purify_source Toy.ratio_string (Raw "<P>") (Files ["a.css"; "b.css"])
         (<["minify" := OBool false]> ∅) Toy.w0
       = (Normal ".a{} .b{} ", w1)).
Proof.
  assert (Hcss : source_reads Toy.w0 (Files ["a.css"; "b.css"])
                   [".a{}"; ".b{}"]) by repeat constructor.
  assert (Hcontent : source_reads Toy.w0 (Raw "<P>") ["<P>"]) by reflexivity.
  assert (Hrej : forall o : gmap string oval,
            truthy (prop o "rejected") = true ->
            exists lines, map_getRuleString ([] ++ []) = Normal lines).
  { intros o _. now exists []. }
  split; [exact Hcss|]. split; [exact Hcontent|]. split.
  - exact (minify_applies_to_purified_source Toy.ratio_string (Raw "<P>")
             (Files ["a.css"; "b.css"]) (<["minify" := OBool true]> ∅)
             [".a{}"; ".b{}"] ["<P>"] ".a{} .b{} " ".a{} .b{} " ".a{} .b{} "
             [] [] Toy.w0 Hcss Hcontent eq_refl eq_refl eq_refl (Hrej _)).
  - exact (minify_applies_to_purified_source Toy.ratio_string (Raw "<P>")
             (Files ["a.css"; "b.css"]) (<["minify" := OBool false]> ∅)
             [".a{}"; ".b{}"] ["<P>"] ".a{} .b{} " ".a{} .b{} " ".a{} .b{} "
             [] [] Toy.w0 Hcss Hcontent eq_refl eq_refl eq_refl (Hrej _)).
Defined.

(** C9: a destination and a callback. *)
Lemma purify_output_returns_undefined_witness :
  let a3 := A3Options (<["output" := OStr "out.css"]> ∅) in
  let r := Toy.run (Raw "<P>") (Raw "p {}") a3
             (Some (fun s => Normal (String.length s))) in
  prop (resolve_options (cbres:=nat) a3) "output" = OStr "out.css"
  /\ "out.css" <> ""
  /\ fst r = Normal RetUndefined
  /\ exists evs, trace (snd r) = [] ++ evs
                 /\ forall source, EvCallback source ∉ evs.
Proof.
  intros a3 r.
  assert (Hpath : "out.css" <> "") by discriminate.
  split; [reflexivity|]. split; [exact Hpath|].
  exact (purify_output_returns_undefined Toy.ratio_string (Raw "<P>")
           (Raw "p {}") a3 (Some (fun s => Normal (String.length s)))
           Toy.w0 "out.css" eq_refl Hpath).
Defined.

(** C10: [write] names a path and [output] is not set. *)
Lemma write_option_is_ignored_witness :
  let r := Toy.run (Raw "<P>") (Raw "p {}")
             (A3Options (<["write" := OStr "out.css"]> ∅)) None in
  truthy (prop (∅ : gmap string oval) "output") = false
  /\ r = Toy.run (Raw "<P>") (Raw "p {}") (A3Options ∅) None
  /\ files (snd r) = Toy.disk
  /\ r = (Normal (RetSource "p {}"), World Toy.disk ∅ [107] []).
Proof.
  intros r.
  destruct (write_option_is_ignored Toy.ratio_string (Raw "<P>") (Raw "p {}")
              ∅ (OStr "out.css") (None : option (string -> completion nat))
              Toy.w0) as [Heq Hrest].
  destruct (Hrest eq_refl) as (Hfiles & _ & Hret).
  split; [reflexivity|]. split; [exact Heq|]. split; [exact Hfiles|].
  exact (Hret "p {}" (World Toy.disk ∅ [107] []) eq_refl).
Defined.

(** * Further properties of the functions *)

(** ** Relations that every stage keeps *)

Section Keeps.
Context {ast value tree extraction cbres : Type}.
Context `{!UglifyJS ast value} `{!CleanCss}
        `{!CssSyntaxTree tree} `{!ContentSelectorExtraction extraction}.
Context {js_string : JSString}.
Context (ratio_string : nat -> nat -> string).
Context (R : world value -> world value -> Prop).
Hypothesis R_refl : forall w, R w w.
Hypothesis R_trans : forall w1 w2 w3, R w1 w2 -> R w2 w3 -> R w1 w3.
Hypothesis R_compressor :
  forall (c : value) w,
    R w (with_globals w (<["compressor" := c]> (globals w))).
Hypothesis R_clock :
  forall w t, R w (World (files w) (globals w) t (trace w)).
Hypothesis R_event : forall w e, R w (log_event w e).

Local Abbreviation M := (M value).

Lemma keeps_ret {A} (a : A) : keeps R (ret a : M A).
Proof. intros w. apply R_refl. Qed.

Lemma keeps_lift {A} (c : completion A) : keeps R (lift c : M A).
Proof. intros w. apply R_refl. Qed.

Lemma keeps_bind {A B} (m : M A) (k : A -> M B) :
  keeps R m -> (forall a, keeps R (k a)) -> keeps R (bind m k).
Proof.
  intros Hm Hk w. unfold bind. specialize (Hm w).
  destruct (m w) as [[a|e] w1]; cbn [snd] in *.
  - eapply R_trans; [exact Hm | apply Hk].
  - exact Hm.
Qed.

Lemma keeps_if {A} (b : bool) (m1 m2 : M A) :
  keeps R m1 -> keeps R m2 -> keeps R (if b then m1 else m2).
Proof. now destruct b. Qed.

Lemma keeps_reduce {A B} (f : A -> B -> M A) (l : list B) :
  (forall a b, keeps R (f a b)) ->
  forall init : A, keeps R (reduce f l init).
Proof.
  intros Hf. induction l as [|x l IH]; intros init; cbn [reduce].
  - apply keeps_ret.
  - apply keeps_bind; [apply Hf | exact IH].
Qed.

Lemma keeps_readFileSync (file : string) :
  keeps R (readFileSync file : M string).
Proof.
  intros w. unfold readFileSync. destruct (files w !! file); apply R_refl.
Qed.

Lemma keeps_Date_new : keeps R (Date_new : M Z).
Proof.
  intros w. unfold Date_new. destruct (clock w) as [|t rest].
  - apply R_refl.
  - apply R_clock.
Qed.

Lemma keeps_console_error (args : list logarg) :
  keeps R (console_error args : M unit).
Proof. intros w. apply R_event. Qed.

Lemma keeps_compressCode (code : string) : keeps R (compressCode code).
Proof.
  intros w. rewrite compressCode_run. cbn [snd]. unfold compress_globals.
  destruct (UglifyJS_parse code) as [a|e];
    [|rewrite with_globals_id; apply R_refl].
  destruct (figure_out_scope a) as [a1|e];
    [|rewrite with_globals_id; apply R_refl].
  destruct UglifyJS_Compressor as [c|e];
    [|rewrite with_globals_id; apply R_refl].
  apply R_compressor.
Qed.

Lemma keeps_concatFiles (paths : list string)
    (options : option (gmap string oval)) :
  keeps R (concatFiles paths options).
Proof.
  unfold concatFiles. apply keeps_reduce. intros total file.
  apply keeps_bind; [apply keeps_readFileSync|]. intros code.
  apply keeps_bind; [|intros; apply keeps_ret].
  apply keeps_if; [apply keeps_compressCode | apply keeps_ret].
Qed.

Lemma keeps_purify_cssString (css : source) :
  keeps R (purify_cssString css : M string).
Proof.
  destruct css; [apply keeps_concatFiles | apply keeps_ret].
Qed.

Lemma keeps_purify_content (searchThrough : source) :
  keeps R (purify_content searchThrough : M string).
Proof.
  unfold purify_content.
  apply keeps_bind; [|intros; apply keeps_ret].
  destruct searchThrough; [apply keeps_concatFiles | apply keeps_compressCode].
Qed.

(** Without the two reports nothing is logged, so [R_event] is not used. *)
Lemma keeps_purify_source_quiet (searchThrough css : source)
    (options : gmap string oval) :
  truthy (prop options "info") = false ->
  truthy (prop options "rejected") = false ->
  keeps R (purify_source ratio_string searchThrough css options : M string).
Proof.
  intros Hinfo Hrej. unfold purify_source.
  apply keeps_bind; [apply keeps_purify_cssString|]. intros cssString.
  apply keeps_bind; [apply keeps_purify_content|]. intros content.
  unfold purify_pruned. rewrite Hinfo, Hrej.
  apply keeps_bind; [apply keeps_Date_new|]. intros startTime.
  apply keeps_bind; [apply keeps_lift|]. intros [source rejected].
  apply keeps_bind; [apply keeps_ret|]. intros _.
  apply keeps_bind; [apply keeps_ret|]. intros _.
  apply keeps_ret.
Qed.

Lemma keeps_purify_source (searchThrough css : source)
    (options : gmap string oval) :
  keeps R (purify_source ratio_string searchThrough css options : M string).
Proof.
  unfold purify_source.
  apply keeps_bind; [apply keeps_purify_cssString|]. intros cssString.
  apply keeps_bind; [apply keeps_purify_content|]. intros content.
  unfold purify_pruned.
  apply keeps_bind; [apply keeps_Date_new|]. intros startTime.
  apply keeps_bind; [apply keeps_lift|]. intros [source rejected].
  apply keeps_bind.
  { apply keeps_if; [|apply keeps_ret]. unfold printInfo.
    repeat (apply keeps_bind; [|intros ?]);
      first [apply keeps_console_error | apply keeps_Date_new]. }
  intros _. apply keeps_bind; [|intros; apply keeps_ret].
  apply keeps_if; [|apply keeps_ret]. unfold printRejected.
  repeat (apply keeps_bind; [|intros ?]);
    first [apply keeps_console_error | apply keeps_lift].
Qed.

Lemma keeps_deliver (options : gmap string oval)
    (cb : option (callback_fn (cbres:=cbres))) (source : string) :
  keeps R (deliver options cb source : M retval).
Proof.
  intros w. destruct (truthy (prop options "output")) eqn:Ho.
  - rewrite (deliver_write _ _ _ _ Ho). apply R_event.
  - destruct cb as [f|].
    + rewrite (deliver_callback _ f _ _ Ho). apply R_event.
    + rewrite (deliver_return _ _ _ Ho). apply R_refl.
Qed.

Lemma keeps_purify (searchThrough css : source) (a3 : arg3 (cbres:=cbres))
    (cb : option callback_fn) :
  keeps R (purify ratio_string searchThrough css a3 cb : M retval).
Proof.
  unfold purify. apply keeps_bind; [apply keeps_purify_source|].
  intros source. apply keeps_deliver.
Qed.

End Keeps.

(** ** What the functions leave alone *)

Section Untouched.
Context {ast value tree extraction cbres : Type}.
Context `{!UglifyJS ast value} `{!CleanCss}
        `{!CssSyntaxTree tree} `{!ContentSelectorExtraction extraction}.
Context {js_string : JSString}.
Context (ratio_string : nat -> nat -> string).

Local Abbreviation M := (M value).
Local Abbreviation world := (world value).
Local Abbreviation resolve_options := (resolve_options (cbres:=cbres)).
Local Abbreviation callback_fn := (callback_fn (cbres:=cbres)).
Local Abbreviation arg3 := (arg3 (cbres:=cbres)).

Lemma same_off_compressor_refl (g : gmap string value) :
  same_off_compressor g g.
Proof. intros k _. reflexivity. Qed.

Lemma same_off_compressor_insert (g : gmap string value) (c : value) :
  same_off_compressor g (<["compressor" := c]> g).
Proof. intros k Hk. now rewrite lookup_insert_ne. Qed.

Lemma same_off_compressor_trans (g1 g2 g3 : gmap string value) :
  same_off_compressor g1 g2 -> same_off_compressor g2 g3 ->
  same_off_compressor g1 g3.
Proof. intros H12 H23 k Hk. rewrite (H23 k Hk). exact (H12 k Hk). Qed.

(** [compressCode] never throws, whatever UglifyJS does; it logs nothing,
    reads no clock, and changes the world at most in the property
    [compressor] of the global object. *)
Theorem compressCode_never_throws (code : string) (w : world) :
  exists (s : string) (w' : world),
    compressCode code w = (Normal s, w')
    /\ files w' = files w /\ clock w' = clock w /\ trace w' = trace w
    /\ same_off_compressor (globals w) (globals w').
Proof.
  exists (compressed code),
    (with_globals w (compress_globals code (globals w))).
  split; [apply compressCode_run|]. repeat split.
  cbn [globals with_globals]. unfold compress_globals.
  destruct (UglifyJS_parse code) as [a|e];
    [|apply same_off_compressor_refl].
  destruct (figure_out_scope a) as [a1|e];
    [|apply same_off_compressor_refl].
  destruct UglifyJS_Compressor as [c|e];
    [|apply same_off_compressor_refl].
  apply same_off_compressor_insert.
Qed.

(** The statements of [purify] before the hand-over (lines 35-78, with
    [concatFiles], [compressCode] and the two reports) assign to no
    property of the global object other than [compressor], whatever the
    sources and options and whether they complete or throw. *)
Theorem purify_source_changes_only_compressor (searchThrough css : source)
    (options : gmap string oval) (w : world) :
  same_off_compressor (globals w)
    (globals (snd (purify_source ratio_string searchThrough css options w))).
Proof.
  apply (keeps_purify_source ratio_string same_globals_off_compressor).
  - intros w0. apply same_off_compressor_refl.
  - intros w1 w2 w3. apply same_off_compressor_trans.
  - intros c w0. apply same_off_compressor_insert.
  - intros w0 t. apply same_off_compressor_refl.
  - intros w0 e. apply same_off_compressor_refl.
Qed.


(** With [info], [rejected] and [output] all falsy (as they are when no
    options are given) [purify] writes nothing to the console and asks
    for no file to be written: the only event is the call of the
    callback, when there is one and the pipeline has produced the text. *)
Theorem purify_silent_without_reports (searchThrough css : source)
    (a3 : arg3) (cb : option callback_fn) (w : world) :
  truthy (prop (resolve_options a3) "info") = false ->
  truthy (prop (resolve_options a3) "rejected") = false ->
  truthy (prop (resolve_options a3) "output") = false ->
  trace (snd (purify ratio_string searchThrough css a3 cb w))
  = trace w
    ++ match fst (purify_source ratio_string searchThrough css
                    (resolve_options a3) w),
             resolve_callback a3 cb with
       | Normal source, Some _ => [EvCallback source]
       | _, _ => []
       end.
Proof.
  intros Hinfo Hrej Hout. rewrite purify_eq.
  pose proof (keeps_purify_source_quiet ratio_string same_trace
                (fun w0 => eq_refl) (fun w1 w2 w3 H12 H23 => eq_trans H23 H12)
                (fun c w0 => eq_refl) (fun w0 t => eq_refl)
                searchThrough css (resolve_options a3) Hinfo Hrej w) as Hq.
  unfold same_trace in Hq.
  destruct (purify_source ratio_string searchThrough css
              (resolve_options a3) w) as [[source|e] w1]; cbn [fst snd] in *.
  - destruct (resolve_callback a3 cb) as [f|].
    + rewrite (deliver_callback _ f source w1 Hout). cbn. now rewrite Hq.
    + rewrite (deliver_return _ source w1 Hout). cbn.
      now rewrite Hq, app_nil_r.
  - now rewrite Hq, app_nil_r.
Qed.

End Untouched.

(** ** Reading and joining files *)

Section Files.
Context {ast value tree extraction cbres : Type}.
Context `{!UglifyJS ast value} `{!CleanCss}
        `{!CssSyntaxTree tree} `{!ContentSelectorExtraction extraction}.
Context {js_string : JSString}.
Context (ratio_string : nat -> nat -> string).

Local Abbreviation M := (M value).
Local Abbreviation world := (world value).
Local Abbreviation resolve_options := (resolve_options (cbres:=cbres)).
Local Abbreviation callback_fn := (callback_fn (cbres:=cbres)).
Local Abbreviation arg3 := (arg3 (cbres:=cbres)).

Lemma reduce_app {A B} (f : A -> B -> M A) (l1 l2 : list B) :
  forall (init : A) (w : world),
  reduce f (l1 ++ l2) init w
  = match reduce f l1 init w with
    | (Normal a, w1) => reduce f l2 a w1
    | (Throw e, w1) => (Throw e, w1)
    end.
Proof.
  induction l1 as [|x l1 IH]; intros init w.
  - reflexivity.
  - cbn [app reduce]. unfold bind.
    destruct (f init x w) as [[a|e] w1]; [apply IH | reflexivity].
Qed.

Lemma concatFiles_unfold (paths : list string)
    (options : option (gmap string oval)) :
  concatFiles paths options
  = reduce (concatFiles_step (truthy (prop (default ∅ options) "compress")))
      paths "".
Proof. reflexivity. Qed.

Lemma concatFiles_step_run (compress : bool) (total file : string)
    (w : world) :
  concatFiles_step compress total file w
  = match files w !! file with
    | Some text =>
        (Normal (total +:+ (if compress then compressed text else text)
                 +:+ " "),
         with_globals w (if compress
                         then compress_globals text (globals w)
                         else globals w))
    | None => (Throw (FsError "ENOENT" file), w)
    end.
Proof.
  unfold concatFiles_step, bind, readFileSync.
  destruct (files w !! file) as [text|]; [|reflexivity].
  destruct compress.
  - now rewrite compressCode_run.
  - unfold ret. now rewrite with_globals_id.
Qed.

(** The text already collected is a prefix of the result and has no
    other influence. *)
Lemma concatFiles_reduce_total (compress : bool) (paths : list string) :
  forall (total : string) (w : world),
  reduce (concatFiles_step compress) paths total w
  = match reduce (concatFiles_step compress) paths "" w with
    | (Normal s, w') => (Normal (total +:+ s), w')
    | (Throw e, w') => (Throw e, w')
    end.
Proof.
  induction paths as [|p paths IH]; intros total w.
  - cbn. now rewrite append_empty_r.
  - cbn [reduce]. unfold bind. rewrite !concatFiles_step_run.
    destruct (files w !! p) as [text|]; [|reflexivity].
    set (c := if compress then compressed text else text).
    rewrite (IH (total +:+ c +:+ " ")), (IH ("" +:+ c +:+ " ")).
    destruct (reduce _ paths "" _) as [[s|e] w']; [|reflexivity].
    change ("" +:+ c +:+ " ") with (c +:+ " ").
    now rewrite !append_assoc.
Qed.

(** [concatFiles] of two lists one after the other is [concatFiles] of
    the first, then of the second in the world the first leaves, with the
    two texts appended; the first exception ends it. *)
Theorem concatFiles_app (paths1 paths2 : list string)
    (options : option (gmap string oval)) (w : world) :
  concatFiles (paths1 ++ paths2) options w
  = match concatFiles paths1 options w with
    | (Normal s1, w1) =>
        match concatFiles paths2 options w1 with
        | (Normal s2, w2) => (Normal (s1 +:+ s2), w2)
        | (Throw e, w2) => (Throw e, w2)
        end
    | (Throw e, w1) => (Throw e, w1)
    end.
Proof.
  rewrite !concatFiles_unfold, reduce_app.
  destruct (reduce _ paths1 "" w) as [[s1|e] w1]; [|reflexivity].
  apply concatFiles_reduce_total.
Qed.

Lemma concatFiles_then (pre rest : list string) (texts : list string)
    (options : option (gmap string oval)) (w : world) :
  Forall2 (fun q t => files w !! q = Some t) pre texts ->
  let compress := truthy (prop (default ∅ options) "compress") in
  concatFiles (pre ++ rest) options w
  = reduce (concatFiles_step compress) rest
      (String.concat ""
         (List.map (fun t => (if compress then compressed t else t) +:+ " ")
            texts))
      (with_globals w (if compress
                       then compress_all_globals texts (globals w)
                       else globals w)).
Proof.
  intros Hpre compress. subst compress.
  rewrite concatFiles_unfold, reduce_app.
  rewrite <- (concatFiles_unfold pre options).
  now rewrite (concatFiles_run options pre texts w Hpre).
Qed.

(** Reading stops at the first path that has no file: the exception names
    it, the files before it have been read (and compressed, when asked),
    the paths after it are not looked at. *)
Lemma concatFiles_missing (pre texts : list string) (p : string)
    (post : list string) (options : option (gmap string oval)) (w : world) :
  Forall2 (fun q t => files w !! q = Some t) pre texts ->
  files w !! p = None ->
  concatFiles (pre ++ p :: post) options w
  = (Throw (FsError "ENOENT" p),
     with_globals w
       (if truthy (prop (default ∅ options) "compress")
        then compress_all_globals texts (globals w)
        else globals w)).
Proof.
  intros Hpre Hp.
  rewrite (concatFiles_then pre (p :: post) texts options w Hpre).
  cbv zeta. cbn [reduce]. unfold bind.
  rewrite concatFiles_step_run. cbn [files with_globals]. now rewrite Hp.
Qed.

(** The css files are read and joined and nothing else: the text, or the
    exception for the first missing file, depends on the files alone (not
    on UglifyJS nor on the global object), and the world is left exactly
    as it was.  A raw string is returned as it is. *)
Theorem cssString_never_compressed (css : source) (w : world) :
  purify_cssString css w
  = (match css with
     | Raw text => Normal text
     | Files paths => read_joined (files w) paths ""
     end, w).
Proof.
  destruct css as [paths|text]; [|reflexivity].
  cbn [purify_cssString]. rewrite concatFiles_unfold.
  change (truthy (prop (default ∅ None) "compress")) with false.
  generalize "". induction paths as [|p paths IH]; intros total.
  - reflexivity.
  - cbn [reduce read_joined]. unfold bind. rewrite concatFiles_step_run.
    destruct (files w !! p) as [text|]; [|reflexivity].
    rewrite with_globals_id. apply IH.
Qed.

(** A css file that is missing: [purify] throws the read error before
    anything else has happened, so the world is exactly as it was (no
    content is read or compressed, the clock is not read, nothing is
    logged, handed to the callback or written). *)
Theorem purify_missing_css_file (pre texts : list string) (p : string)
    (post : list string) (searchThrough : source) (a3 : arg3)
    (cb : option callback_fn) (w : world) :
  Forall2 (fun q t => files w !! q = Some t) pre texts ->
  files w !! p = None ->
  purify ratio_string searchThrough (Files (pre ++ p :: post)) a3 cb w
  = (Throw (FsError "ENOENT" p), w).
Proof.
  intros Hpre Hp. rewrite purify_eq. unfold purify_source. unfold bind at 1.
  cbn [purify_cssString].
  rewrite (concatFiles_missing pre texts p post None w Hpre Hp).
  change (truthy (prop (default ∅ None) "compress")) with false.
  cbv iota. now rewrite with_globals_id.
Qed.

(** A content file that is missing: [purify] throws the read error after
    the css has been read and the content files before the missing one
    have been read and compressed; nothing is logged, handed over or
    written, and the clock is not read. *)
Theorem purify_missing_content_file (pre texts cssTexts : list string)
    (p : string) (post : list string) (css : source) (a3 : arg3)
    (cb : option callback_fn) (w : world) :
  source_reads w css cssTexts ->
  Forall2 (fun q t => files w !! q = Some t) pre texts ->
  files w !! p = None ->
  purify ratio_string (Files (pre ++ p :: post)) css a3 cb w
  = (Throw (FsError "ENOENT" p),
     with_globals w (compress_all_globals texts (globals w))).
Proof.
  intros Hcss Hpre Hp. rewrite purify_eq. unfold purify_source.
  unfold bind at 1. rewrite (purify_cssString_run css cssTexts w Hcss).
  unfold bind at 1. unfold purify_content. unfold bind at 1.
  rewrite (concatFiles_missing pre texts p post
             (Some (<["compress" := OBool true]> ∅)) w Hpre Hp).
  reflexivity.
Qed.

End Files.

(** ** Failures, reports and options *)

Section Reports.
Context {ast value tree extraction cbres : Type}.
Context `{!UglifyJS ast value} `{!CleanCss}
        `{!CssSyntaxTree tree} `{!ContentSelectorExtraction extraction}.
Context {js_string : JSString}.
Context (ratio_string : nat -> nat -> string).

Local Abbreviation M := (M value).
Local Abbreviation world := (world value).
Local Abbreviation resolve_options := (resolve_options (cbres:=cbres)).
Local Abbreviation callback_fn := (callback_fn (cbres:=cbres)).
Local Abbreviation arg3 := (arg3 (cbres:=cbres)).

(** The inputs are read: what is left of [purify_source]. *)
Lemma purify_source_inputs (searchThrough css : source)
    (options : gmap string oval) (cssTexts texts : list string) (w : world) :
  source_reads w css cssTexts ->
  source_reads w searchThrough texts ->
  purify_source ratio_string searchThrough css options w
  = purify_pruned ratio_string options (joined css cssTexts)
      (toLowerCase (joined searchThrough (List.map compressed texts)))
      (with_globals w (compress_all_globals texts (globals w))).
Proof.
  intros Hcss Hcontent. unfold purify_source. unfold bind at 1.
  rewrite (purify_cssString_run css cssTexts w Hcss). unfold bind at 1.
  now rewrite (purify_content_run searchThrough texts w Hcontent).
Qed.

Lemma Date_new_run (w : world) :
  Date_new w
  = (Normal (hd 0 (clock w)),
     World (files w) (globals w) (tl (clock w)) (trace w)).
Proof. unfold Date_new. destruct w as [f g [|t rest] tr]; reflexivity. Qed.

(** A css text that the parser rejects: [purify] throws the parser's
    exception; nothing is logged, handed to the callback or written, and
    no file changes. *)
Theorem purify_parse_failure (searchThrough css : source) (a3 : arg3)
    (cb : option callback_fn) (cssTexts texts : list string) (e : exn)
    (w : world) :
  source_reads w css cssTexts ->
  source_reads w searchThrough texts ->
  CssSyntaxTree_new (joined css cssTexts) = Throw e ->
  let r := purify ratio_string searchThrough css a3 cb w in
  fst r = Throw e /\ trace (snd r) = trace w /\ files (snd r) = files w.
Proof.
  intros Hcss Hcontent Hparse r.
  assert (Hr : r = (Throw e,
                    snd (Date_new (with_globals w
                           (compress_all_globals texts (globals w)))))).
  { subst r. rewrite purify_eq.
    rewrite (purify_source_inputs _ _ _ cssTexts texts w Hcss Hcontent).
    unfold purify_pruned. unfold bind at 1. rewrite Date_new_run.
    unfold bind at 1. unfold lift at 1. unfold purify_tree.
    now rewrite Hparse. }
  rewrite Hr, Date_new_run. split; [reflexivity | split; reflexivity].
Qed.

(** With the [rejected] report asked for and a rejected twig that
    [getRuleString] cannot render, [purify] throws that exception after
    the two heading lines of the report: the purified text is computed
    but neither returned, nor handed to the callback, nor written. *)
Theorem purify_report_failure (searchThrough css : source) (a3 : arg3)
    (cb : option callback_fn) (cssTexts texts : list string)
    (tree0 tree1 tree2 : tree) (rej1 rej2 : list jv) (e : exn) (w : world) :
  source_reads w css cssTexts ->
  source_reads w searchThrough texts ->
  let cssString := joined css cssTexts in
  let content := toLowerCase (joined searchThrough (List.map compressed texts))
  in
  CssSyntaxTree_new cssString = Normal tree0 ->
  filterSelectors tree0 (used_classes tree0 content) (usedHtmlEls content)
    (used_ids tree0 content) (used_attrSelectors tree0 content)
  = (tree1, rej1) ->
  filterAtRules tree1 (used_classes tree0 content) (usedHtmlEls content)
    (used_ids tree0 content) (used_attrSelectors tree0 content)
  = (tree2, rej2) ->
  truthy (prop (resolve_options a3) "rejected") = true ->
  map_getRuleString (rej1 ++ rej2) = Throw e ->
  let r := purify ratio_string searchThrough css a3 cb w in
  fst r = Throw e
  /\ exists evs : list event,
       trace (snd r)
       = trace w ++ evs
         ++ [EvConsole [LStr "##################################"];
             EvConsole [LStr "Rejected selectors:"]]
       /\ Forall is_console evs.
Proof.
  intros Hcss Hcontent cssString content Hnew Hsel Hat Hrej Hthrow r.
  set (w2 := with_globals w (compress_all_globals texts (globals w))).
  set (w3 := World (files w2) (globals w2) (tl (clock w2)) (trace w2)).
  set (source := if truthy (prop (resolve_options a3) "minify")
                 then CleanCss_minify_styles (toSrc tree2) else toSrc tree2).
  assert (Hinfo : exists w4 evs,
            (if truthy (prop (resolve_options a3) "info")
             then printInfo ratio_string (hd 0 (clock w2))
                    (js_length cssString) (js_length source)
             else ret tt) w3 = (Normal tt, w4)
            /\ trace w4 = trace w ++ evs /\ Forall is_console evs).
  { destruct (truthy (prop (resolve_options a3) "info")).
    - destruct (printInfo_returns ratio_string (hd 0 (clock w2))
                  (js_length cssString) (js_length source) w3)
        as [w4 Hw4].
      pose proof (framed_printInfo ratio_string true (hd 0 (clock w2))
                    (js_length cssString) (js_length source) w3)
        as (_ & _ & evs & Htr & Hcons).
      rewrite Hw4 in Htr. exists w4, evs. split; [exact Hw4|].
      split; [exact Htr | exact Hcons].
    - exists w3, []. split; [reflexivity|].
      split; [cbn; now rewrite app_nil_r | constructor]. }
  destruct Hinfo as (w4 & evs & Hinfo & Htr & Hcons).
  assert (Hr : r = (Throw e,
                    log_event
                      (log_event w4
                         (EvConsole
                            [LStr "##################################"]))
                      (EvConsole [LStr "Rejected selectors:"]))).
  { subst r. rewrite purify_eq.
    rewrite (purify_source_inputs _ _ _ cssTexts texts w Hcss Hcontent).
    fold cssString content w2.
    unfold purify_pruned. unfold bind at 1. rewrite Date_new_run.
    fold w3. unfold bind at 1. unfold lift at 1.
    rewrite (purify_tree_run cssString content tree0 tree1 tree2 rej1 rej2
               Hnew Hsel Hat).
    rewrite Hrej. fold source. unfold bind at 1. rewrite Hinfo.
    unfold bind at 1. unfold printRejected, bind, console_error, emit, lift.
    now rewrite Hthrow. }
  rewrite Hr. cbn [fst snd]. split; [reflexivity|].
  exists evs. split; [|exact Hcons].
  cbn [trace log_event]. rewrite Htr. now rewrite <- !List.app_assoc.
Qed.

(** The events of an invocation, in order: console lines first, then at
    most one hand-over, which comes last and carries the text the
    pipeline has produced: the write request when [options.output] is
    truthy, else the call of the callback when there is one. *)
Theorem purify_trace_order (searchThrough css : source) (a3 : arg3)
    (cb : option callback_fn) (w : world) :
  exists consoles delivery : list event,
    trace (snd (purify ratio_string searchThrough css a3 cb w))
    = trace w ++ consoles ++ delivery
    /\ Forall is_console consoles
    /\ delivery
       = match fst (purify_source ratio_string searchThrough css
                      (resolve_options a3) w) with
         | Throw _ => []
         | Normal source =>
             if truthy (prop (resolve_options a3) "output")
             then [EvWriteFile (prop (resolve_options a3) "output") source
                     writeFile_callback]
             else match resolve_callback a3 cb with
                  | Some _ => [EvCallback source]
                  | None => []
                  end
         end.
Proof.
  rewrite purify_eq.
  pose proof (framed_purify_source ratio_string searchThrough css
                (resolve_options a3) w) as (_ & _ & evs & Htr & Hcons).
  destruct (purify_source ratio_string searchThrough css
              (resolve_options a3) w) as [[source|e] w1]; cbn [fst snd] in *.
  - exists evs. eexists. split; [|split; [exact Hcons | reflexivity]].
    destruct (truthy (prop (resolve_options a3) "output")) eqn:Ho.
    + rewrite (deliver_write _ _ _ _ Ho). cbn. now rewrite Htr, List.app_assoc.
    + destruct (resolve_callback a3 cb) as [f|].
      * rewrite (deliver_callback _ f source w1 Ho). cbn.
        now rewrite Htr, List.app_assoc.
      * rewrite (deliver_return _ source w1 Ho). cbn.
        now rewrite Htr, app_nil_r.
  - exists evs, []. split; [|split; [exact Hcons | reflexivity]].
    now rewrite Htr, app_nil_r.
Qed.

Lemma prop_resolve_insert_ne (o : gmap string oval) (k k' : string)
    (v : oval) :
  k' <> k ->
  prop (resolve_options (A3Options (<[k := v]> o))) k'
  = prop (resolve_options (A3Options o)) k'.
Proof.
  intros Hk. unfold resolve_options, extend, prop.
  rewrite !(lookup_union _ (DEFAULT_OPTIONS ∪ ∅)).
  now rewrite lookup_insert_ne by congruence.
Qed.

Lemma prop_resolve_delete_ne (o : gmap string oval) (k k' : string) :
  k' <> k ->
  prop (resolve_options (A3Options (delete k o))) k'
  = prop (resolve_options (A3Options o)) k'.
Proof.
  intros Hk. unfold resolve_options, extend, prop.
  rewrite !(lookup_union _ (DEFAULT_OPTIONS ∪ ∅)).
  now rewrite lookup_delete_ne by congruence.
Qed.

(** [purify] reads the options [minify], [info], [rejected] and [output]
    and no other: a property of any other name, whatever its value,
    changes nothing of what an invocation returns or does. *)
Theorem purify_reads_four_options (searchThrough css : source)
    (o : gmap string oval) (k : string) (v : oval)
    (cb : option callback_fn) (w : world) :
  k ∉ read_options ->
  purify ratio_string searchThrough css (A3Options (<[k := v]> o)) cb w
  = purify ratio_string searchThrough css (A3Options o) cb w.
Proof.
  intros Hk.
  assert (Hne : forall k', k' ∈ read_options -> k' <> k).
  { intros k' Hin ->. exact (Hk Hin). }
  rewrite !purify_eq.
  rewrite (purify_source_options ratio_string searchThrough css
             (resolve_options (A3Options (<[k := v]> o)))
             (resolve_options (A3Options o)) w)
    by (apply prop_resolve_insert_ne, Hne; unfold read_options; set_solver).
  destruct (purify_source ratio_string searchThrough css
              (resolve_options (A3Options o)) w) as [[source|e] w1];
    [|reflexivity].
  apply deliver_options, prop_resolve_insert_ne, Hne.
  unfold read_options; set_solver.
Qed.

(** A falsy [output] (the empty string, [false], [0], [null],
    [undefined]) is no destination at all: the invocation behaves as if
    the option were not there. *)
Theorem falsy_output_is_no_output (searchThrough css : source)
    (o : gmap string oval) (cb : option callback_fn) (w : world) :
  truthy (prop o "output") = false ->
  purify ratio_string searchThrough css (A3Options o) cb w
  = purify ratio_string searchThrough css (A3Options (delete "output" o))
      cb w.
Proof.
  intros Ho. rewrite !purify_eq.
  rewrite (purify_source_options ratio_string searchThrough css
             (resolve_options (A3Options (delete "output" o)))
             (resolve_options (A3Options o)) w)
    by (apply prop_resolve_delete_ne; discriminate).
  destruct (purify_source ratio_string searchThrough css
              (resolve_options (A3Options o)) w) as [[source|e] w1];
    [|reflexivity].
  assert (Ho1 : truthy (prop (resolve_options (A3Options o)) "output")
                = false) by now rewrite prop_resolve_output.
  assert (Ho2 : truthy (prop (resolve_options
                                (A3Options (delete "output" o))) "output")
                = false).
  { rewrite prop_resolve_output. unfold prop.
    now rewrite lookup_delete_eq. }
  cbn [resolve_callback]. destruct cb as [f|].
  - now rewrite (deliver_callback _ f source w1 Ho1),
      (deliver_callback _ f source w1 Ho2).
  - now rewrite (deliver_return _ source w1 Ho1),
      (deliver_return _ source w1 Ho2).
Qed.

End Reports.

Section InfoReport.
Context {ast value tree extraction : Type}.
Context `{!UglifyJS ast value} `{!CleanCss}
        `{!CssSyntaxTree tree} `{!ContentSelectorExtraction extraction}.
Context {js_string : JSString}.
Context (ratio_string : nat -> nat -> string).


End InfoReport.

(** ** More on getRuleString *)

(** The loop over well-tagged parts in the middle of a twig: it reaches
    the node after them with their renderings appended. *)
Lemma getRuleString_loop_prefix (front back : list jv) (parts : list part)
    (n : nat) :
  forall (seen : list part) (ruleString : string),
  Forall well_tagged parts ->
  let twig := JArr (front ++ List.map part_node (seen ++ parts) ++ back) in
  getRuleString_loop twig (List.length front + List.length seen)
    (List.length parts + n) ruleString
  = getRuleString_loop twig
      (List.length front + List.length seen + List.length parts) n
      (ruleString +:+ String.concat "" (List.map (render_part twig) parts)).
Proof.
  induction parts as [|p parts IH]; intros seen ruleString Hwt twig.
  - cbn [List.length List.map plus]. rewrite Nat.add_0_r.
    cbn. now rewrite append_empty_r.
  - apply Forall_cons in Hwt as [Hp Hwt].
    cbn [List.length plus getRuleString_loop List.map].
    rewrite concat_empty_cons.
    assert (Hget : JS.get twig (List.length front + List.length seen)
                   = Normal (part_node p)).
    { unfold twig, JS.get. f_equal.
      rewrite List.map_app. cbn [List.map].
      rewrite <- List.app_assoc, List.app_assoc. cbn [List.app].
      rewrite <- (List.length_map part_node seen), <- List.length_app.
      apply List.nth_middle. }
    rewrite Hget.
    unfold twig at 1. rewrite (ruleString_of_part_node _ p Hp).
    fold twig.
    specialize (IH (seen ++ [p]) (ruleString +:+ render_part twig p) Hwt).
    rewrite <- List.app_assoc in IH. cbn [List.app] in IH.
    rewrite List.length_app in IH. cbn [List.length] in IH.
    fold twig in IH.
    replace (S (List.length front + List.length seen))
      with (List.length front + (List.length seen + 1))%nat by lia.
    rewrite IH. rewrite append_assoc. f_equal. lia.
Qed.

Lemma render_part_decorated (twig twig' : jv) (p : part) :
  decorated p -> render_part twig p = render_part twig' p.
Proof. destruct p; [reflexivity .. | intros []]. Qed.

Lemma decorated_well_tagged (p : part) : decorated p -> well_tagged p.
Proof. destruct p; [intros; exact I .. | intros []]. Qed.

Lemma getRuleString_twig_node (tag : jv) (parts : list part) :
  Forall well_tagged parts ->
  getRuleString (twig_node tag parts) = Normal (render_twig (tag, parts)).
Proof.
  intros Hwt. unfold getRuleString, twig_node, render_twig.
  cbn [JS.length List.length fst snd]. rewrite List.length_map.
  replace (S (List.length parts) - 1)%nat with (List.length parts) by lia.
  exact (getRuleString_loop_parts [tag] parts [] "" Hwt).
Qed.

(** The first element of a twig, the node tag, has no part in the
    rendering of a twig made of class, id, tag, attribute and whitespace
    parts. *)
Theorem getRuleString_ignores_tag (tag tag' : jv) (parts : list part) :
  Forall decorated parts ->
  getRuleString (twig_node tag parts) = getRuleString (twig_node tag' parts).
Proof.
  intros Hdec.
  assert (Hwt : Forall well_tagged parts).
  { eapply Forall_impl; [exact Hdec | exact decorated_well_tagged]. }
  rewrite !getRuleString_twig_node by exact Hwt.
  unfold render_twig. cbn [fst snd]. do 2 f_equal.
  generalize (twig_node tag parts), (twig_node tag' parts). intros t t'.
  clear Hwt. induction Hdec as [|p rest Hp Hrest IH]; [reflexivity|].
  cbn [List.map]. f_equal.
  - now apply render_part_decorated.
  - exact IH.
Qed.

(** A hole in the twig, or a class or attribute node without its child,
    after any well-formed parts: [getRuleString] throws a [TypeError] and
    returns nothing of what it has rendered so far. *)
Theorem getRuleString_broken_part_throws (tag bad : jv) (pre : list part)
    (post : list jv) :
  Forall well_tagged pre ->
  broken_node bad ->
  exists message : string,
    getRuleString (JArr (tag :: List.map part_node pre ++ bad :: post))
    = Throw (TypeError message).
Proof.
  intros Hwt Hbad. unfold getRuleString.
  cbn [JS.length List.length]. rewrite List.length_app, List.length_map.
  cbn [List.length].
  replace (S (List.length pre + S (List.length post)) - 1)%nat
    with (List.length pre + S (List.length post))%nat by lia.
  pose proof (getRuleString_loop_prefix [tag] (bad :: post) pre
                (S (List.length post)) [] "" Hwt) as Hloop.
  cbn [List.app List.length plus] in Hloop. rewrite Hloop. clear Hloop.
  cbn [getRuleString_loop].
  assert (Hget : JS.get (JArr (tag :: List.map part_node pre ++ bad :: post))
                   (S (List.length pre)) = Normal bad).
  { unfold JS.get. f_equal. cbn [nth].
    rewrite <- (List.length_map part_node pre). apply List.nth_middle. }
  rewrite Hget.
  destruct Hbad as [-> | [-> | ->]]; eexists; reflexivity.
Qed.

Lemma map_getRuleString_twigs (twigs : list (jv * list part)) :
  Forall (fun t => Forall well_tagged (snd t)) twigs ->
  map_getRuleString (List.map (fun t => twig_node (fst t) (snd t)) twigs)
  = Normal (List.map render_twig twigs).
Proof.
  induction 1 as [|[tag parts] twigs Hwt Hrest IH]; [reflexivity|].
  cbn [List.map map_getRuleString fst snd] in *.
  now rewrite (getRuleString_twig_node tag parts Hwt), IH.
Qed.

(** The report of rejected selectors: a heading, a title, the renderings
    of the twigs in order, one per line, and the heading again; for twigs
    of tagged parts it never throws, and an empty list gives an empty
    line. *)
Theorem printRejected_lists_renderings {value : Type}
    (twigs : list (jv * list part)) (w : world value) :
  Forall (fun t => Forall well_tagged (snd t)) twigs ->
  printRejected (List.map (fun t => twig_node (fst t) (snd t)) twigs) w
  = (Normal tt,
     World (files w) (globals w) (clock w)
       (trace w
        ++ [EvConsole [LStr "##################################"];
            EvConsole [LStr "Rejected selectors:"];
            EvConsole [LStr (String.concat LF (List.map render_twig twigs))];
            EvConsole [LStr "##################################"]])).
Proof.
  intros Hwt. unfold printRejected, bind, console_error, emit, lift, log_event.
  rewrite (map_getRuleString_twigs twigs Hwt).
  cbn [files globals clock trace]. now rewrite <- !List.app_assoc.
Qed.

(** The options in force, as [_.extend({}, DEFAULT_OPTIONS, options)]
    makes them: a property that the caller gives wins, whatever its value
    (an explicit [undefined] too); a default fills in only where the
    caller gives nothing; a function or nothing in third place leaves the
    defaults. *)
Theorem resolve_options_lookup {cbres : Type} (a3 : arg3 (cbres:=cbres))
    (k : string) :
  prop (resolve_options a3) k
  = match a3 with
    | A3Options o =>
        match o !! k with
        | Some v => v
        | None => prop DEFAULT_OPTIONS k
        end
    | _ => prop DEFAULT_OPTIONS k
    end.
Proof.
  assert (Hd : forall o : gmap string oval,
            prop (extend (extend ∅ DEFAULT_OPTIONS) o) k
            = match o !! k with
              | Some v => v
              | None => prop DEFAULT_OPTIONS k
              end).
  { intros o. unfold extend, prop. rewrite lookup_union.
    rewrite (lookup_union_l DEFAULT_OPTIONS ∅) by apply lookup_empty.
    destruct (o !! k) as [v|], (DEFAULT_OPTIONS !! k); reflexivity. }
  unfold resolve_options. destruct a3 as [|o|f]; rewrite Hd.
  - now rewrite lookup_empty.
  - reflexivity.
  - now rewrite lookup_empty.
Qed.

(** ** Evaluations of the further properties *)

(** No options and a callback in third place: one event, the callback. *)
Lemma purify_silent_without_reports_witness :
  let a3 := A3Function (fun s => Normal (String.length s)) in
  truthy (prop (resolve_options a3) "info") = false
  /\ truthy (prop (resolve_options a3) "rejected") = false
  /\ truthy (prop (resolve_options a3) "output") = false
  /\ trace (snd (Toy.run (Raw "<P>") (Raw "p {}") a3 None))
     = [] ++ [EvCallback "p {}"].
Proof.
  intros a3.
  split; [reflexivity|]. split; [reflexivity|]. split; [reflexivity|].
  exact (purify_silent_without_reports Toy.ratio_string (Raw "<P>")
           (Raw "p {}") a3 None Toy.w0 eq_refl eq_refl eq_refl).
Defined.

(** The second of three css files is missing. *)
Lemma purify_missing_css_file_witness :
  Forall2 (fun q t => files Toy.w0 !! q = Some t) ["a.css"] [".a{}"]
  /\ files Toy.w0 !! "gone.css" = None
  /\ Toy.run (Raw "<P>") (Files ["a.css"; "gone.css"; "b.css"]) A3Undefined
       None
     = (Throw (FsError "ENOENT" "gone.css"), Toy.w0).
Proof.
  assert (Hpre : Forall2 (fun q t => files Toy.w0 !! q = Some t)
                   ["a.css"] [".a{}"]) by repeat constructor.
  split; [exact Hpre|]. split; [reflexivity|].
  exact (purify_missing_css_file Toy.ratio_string ["a.css"] [".a{}"]
           "gone.css" ["b.css"] (Raw "<P>") A3Undefined None Toy.w0
           Hpre eq_refl).
Defined.

(** The second of three content files is missing; the first, a script,
    has been compressed. *)
Lemma purify_missing_content_file_witness :
  source_reads Toy.w0 (Raw "p {}") ["p {}"]
  /\ Forall2 (fun q t => files Toy.w0 !! q = Some t) ["z.js"] ["F (B)"]
  /\ files Toy.w0 !! "gone.html" = None
  /\ Toy.run (Files ["z.js"; "gone.html"; "x.html"]) (Raw "p {}") A3Undefined
       None
     = (Throw (FsError "ENOENT" "gone.html"),
        with_globals Toy.w0 (<["compressor" := "[object Compressor]"]> ∅)).
Proof.
  assert (Hpre : Forall2 (fun q t => files Toy.w0 !! q = Some t)
                   ["z.js"] ["F (B)"]) by repeat constructor.
  split; [reflexivity|]. split; [exact Hpre|]. split; [reflexivity|].
  exact (purify_missing_content_file Toy.ratio_string ["z.js"] ["F (B)"]
           ["p {}"] "gone.html" ["x.html"] (Raw "p {}") A3Undefined None
           Toy.w0 eq_refl Hpre eq_refl).
Defined.

(** A css text that the parser rejects. *)
Lemma purify_parse_failure_witness :
  source_reads Toy.w0 (Raw "{") ["{"]
  /\ source_reads Toy.w0 (Raw "<P>") ["<P>"]
  /\ CssSyntaxTree_new (CssSyntaxTree := Faulty.csstree) "{"
     = Throw (Thrown "CssSyntaxError")
  /\ fst (Faulty.run (Raw "<P>") (Raw "{") A3Undefined None)
     = Throw (Thrown "CssSyntaxError")
  /\ trace (snd (Faulty.run (Raw "<P>") (Raw "{") A3Undefined None)) = [].
Proof.
  split; [reflexivity|]. split; [reflexivity|]. split; [reflexivity|].
  destruct (purify_parse_failure (CssSyntaxTree0 := Faulty.csstree)
              Toy.ratio_string (Raw "<P>") (Raw "{") A3Undefined
              (None : option (string -> completion nat)) ["{"] ["<P>"]
              (Thrown "CssSyntaxError") Toy.w0 eq_refl eq_refl eq_refl)
    as (Hr & Htr & _).
  split; [exact Hr | exact Htr].
Defined.

(** The [rejected] report meets a class node without its identifier. *)
Lemma purify_report_failure_witness :
  let a3 := A3Options (<["rejected" := OBool true]> ∅) in
  let broken := JArr [JStr "simpleselector"; JArr [JStr "clazz"]] in
  truthy (prop (resolve_options (cbres:=nat) a3) "rejected") = true
  /\ map_getRuleString ([broken] ++ [])
     = Throw (TypeError "Cannot read property of undefined")
  /\ fst (Faulty.run (Raw "<P>") (Raw "p {}") a3
            (Some (fun s => Normal (String.length s))))
     = Throw (TypeError "Cannot read property of undefined")
  /\ exists evs,
       trace (snd (Faulty.run (Raw "<P>") (Raw "p {}") a3
                     (Some (fun s => Normal (String.length s)))))
       = [] ++ evs
         ++ [EvConsole [LStr "##################################"];
             EvConsole [LStr "Rejected selectors:"]]
       /\ Forall is_console evs.
Proof.
  intros a3 broken.
  split; [reflexivity|]. split; [reflexivity|].
  exact (purify_report_failure (CssSyntaxTree0 := Faulty.csstree)
           Toy.ratio_string (Raw "<P>") (Raw "p {}") a3
           (Some (fun s => Normal (String.length s))) ["p {}"] ["<P>"]
           "p {}" "p {}" "p {}" [broken] []
           (TypeError "Cannot read property of undefined") Toy.w0
           eq_refl eq_refl eq_refl eq_refl eq_refl eq_refl eq_refl).
Defined.

(** An option that [purify] does not know. *)
Lemma purify_reads_four_options_witness :
  ("whitelist" ∉ read_options)
  /\ Toy.run (Raw "<P>") (Raw "p {}")
       (A3Options (<["whitelist" := OStr "*x*"]> ∅)) None
     = Toy.run (Raw "<P>") (Raw "p {}") (A3Options ∅) None.
Proof.
  assert (Hk : "whitelist" ∉ read_options).
  { unfold read_options. intros Hin.
    repeat (apply elem_of_cons in Hin as [Hin|Hin]; [discriminate|]).
    now apply not_elem_of_nil in Hin. }
  split; [exact Hk|].
  exact (purify_reads_four_options Toy.ratio_string (Raw "<P>") (Raw "p {}")
           ∅ "whitelist" (OStr "*x*")
           (None : option (string -> completion nat)) Toy.w0 Hk).
Defined.

(** The empty string as destination. *)
Lemma falsy_output_is_no_output_witness :
  truthy (prop (<["output" := OStr ""]> (∅ : gmap string oval)) "output")
  = false
  /\ Toy.run (Raw "<P>") (Raw "p {}")
       (A3Options (<["output" := OStr ""]> ∅)) None
     = Toy.run (Raw "<P>") (Raw "p {}")
         (A3Options (delete "output" (<["output" := OStr ""]> ∅))) None.
Proof.
  split; [reflexivity|].
  exact (falsy_output_is_no_output Toy.ratio_string (Raw "<P>") (Raw "p {}")
           (<["output" := OStr ""]> ∅)
           (None : option (string -> completion nat)) Toy.w0 eq_refl).
Defined.


Lemma getRuleString_ignores_tag_witness :
  Forall decorated [PClass "a"; PWhitespace " "; PTag "b"]
  /\ getRuleString
       (twig_node (JStr "simpleselector")
          [PClass "a"; PWhitespace " "; PTag "b"])
     = getRuleString
         (twig_node JUndefined [PClass "a"; PWhitespace " "; PTag "b"]).
Proof.
  assert (Hdec : Forall decorated [PClass "a"; PWhitespace " "; PTag "b"])
    by repeat constructor.
  split; [exact Hdec|].
  exact (getRuleString_ignores_tag (JStr "simpleselector") JUndefined _ Hdec).
Defined.

Lemma getRuleString_broken_part_throws_witness :
  Forall well_tagged [PTag "a"]
  /\ broken_node (JArr [JStr "clazz"])
  /\ exists message,
       getRuleString
         (JArr [JStr "simpleselector"; JArr [JStr "ident"; JStr "a"];
                JArr [JStr "clazz"]; JArr [JStr "ident"; JStr "b"]])
       = Throw (TypeError message).
Proof.
  assert (Hwt : Forall well_tagged [PTag "a"]) by repeat constructor.
  assert (Hbad : broken_node (JArr [JStr "clazz"]))
    by (right; left; reflexivity).
  split; [exact Hwt|]. split; [exact Hbad|].
  exact (getRuleString_broken_part_throws (JStr "simpleselector")
           (JArr [JStr "clazz"]) [PTag "a"] [JArr [JStr "ident"; JStr "b"]]
           Hwt Hbad).
Defined.

Lemma printRejected_lists_renderings_witness :
  let twigs :=
    [(JStr "simpleselector", [PClass "a"; PWhitespace " "; PTag "b"]);
     (JStr "simpleselector", [PWhitespace LF; PId "c"])] in
  Forall (fun t => Forall well_tagged (snd t)) twigs
  /\ printRejected (List.map (fun t => twig_node (fst t) (snd t)) twigs)
       Toy.w0
     = (Normal tt,
        World Toy.disk ∅ [100; 107]
          [EvConsole [LStr "##################################"];
           EvConsole [LStr "Rejected selectors:"];
           EvConsole [LStr (".a b" +:+ LF +:+ "#c")];
           EvConsole [LStr "##################################"]]).
Proof.
  intros twigs.
  assert (Hwt : Forall (fun t => Forall well_tagged (snd t)) twigs)
    by repeat constructor.
  split; [exact Hwt|].
  exact (printRejected_lists_renderings twigs Toy.w0 Hwt).
Defined.

